(** * GLES backend function factory (src/graph/backends/GLES/GCFunctionsFactory.cpp)

    A shallow embedding of the lowering of graph nodes to GLES compute
    functions.  The C++ code is a sequence of assertions, pointer
    resolutions, one mutation of a backing tensor's descriptor and calls
    into the runtime library.  It is modelled in a state-and-abort monad:
    the state holds the backing tensors (their descriptors are mutable and
    may be aliased by several operand slots) and a chronological trace of
    the calls made into the runtime library. *)

From stdpp Require Import gmap strings list.

Local Open Scope string_scope.
Local Open Scope list_scope.

(** ** Enumerations of arm_compute/core/Types.h and arm_compute/graph/Types.h

    The headers are not part of the sources at hand.  Enumerators that the
    factory names are kept under their own names; every enumeration the
    factory branches on with a default arm gets one more constructor that
    stands for any value the factory does not name. *)

Inductive Target := NEON | CL | GC | UNSPECIFIED.

#[export] Instance Target_eq_dec : EqDecision Target.
Proof. solve_decision. Defined.

Inductive DataType :=
  | UNKNOWN | U8 | S8 | QS8 | QASYMM8 | U16 | S16 | QS16
  | U32 | S32 | QS32 | U64 | S64 | F16 | F32 | F64 | SIZE_T.

Inductive NodeType :=
  | ActivationLayer
  | BatchNormalizationLayer
  | ConvolutionLayer
  | DepthConcatenateLayer
  | DepthwiseConvolutionLayer
  | EltwiseLayer
  | FullyConnectedLayer
  | NormalizationLayer
  | PoolingLayer
  | SoftmaxLayer
  | OtherNodeType (tag : N).

Inductive ConvolutionMethod :=
  | DIRECT
  | OtherConvolutionMethod (tag : N).

Inductive DepthwiseConvolutionMethod :=
  | OPTIMIZED_3x3
  | OtherDepthwiseConvolutionMethod (tag : N).

Inductive EltwiseOperation :=
  | ADD
  | SUB
  | MUL
  | OtherEltwiseOperation (tag : N).

Inductive ConvertPolicy := WRAP | SATURATE.

Inductive ActivationFunction :=
  | LOGISTIC | TANH | RELU | BOUNDED_RELU | LU_BOUNDED_RELU | LEAKY_RELU
  | SOFT_RELU | ABS | SQUARE | SQRT | LINEAR.

Inductive NormType := IN_MAP_1D | IN_MAP_2D | CROSS_MAP.

Inductive PoolingType := MAX | AVG | L2.

(** A C++ [float] is only stored and handed on by the factory, never
    computed with: it is kept as its IEEE-754 binary32 bit pattern. *)
Definition float := N.

(** The literal [1.f]. *)
Definition float_one : float := 0x3F800000%N.

Record ActivationLayerInfo := {
  activation : ActivationFunction;
  act_a : float;
  act_b : float;
  act_enabled : bool
}.

Record PadStrideInfo := {
  stride : N * N;
  pad : N * N
}.

Record NormalizationLayerInfo := {
  norm_type : NormType;
  norm_size : N;
  norm_alpha : float;
  norm_beta : float;
  norm_kappa : float
}.

Record PoolingLayerInfo := {
  pool_type : PoolingType;
  pool_size : N;
  pool_pad_stride : PadStrideInfo
}.

(** Modelled from the spec: [is_data_type_quantized_asymmetric] of
    arm_compute/core/Utils.h is missing; the spec speaks of the one
    quantized-asymmetric datatype. *)
Definition is_data_type_quantized_asymmetric (dt : DataType) : bool :=
  match dt with
  | QASYMM8 => true
  | _ => false
  end.

(** ** Tensors *)

(** Address of a backing tensor ([IGCTensor *]); the null pointer is [None]
    at the type [option addr]. *)
Definition addr := positive.

(** What [IGCTensor::info()] points to. *)
Record ITensorInfo := {
  data_type : DataType;
  tensor_shape : list N
}.

Definition set_data_type (dt : DataType) (i : ITensorInfo) : ITensorInfo :=
  {| data_type := dt; tensor_shape := tensor_shape i |}.

(** A graph tensor: [desc().target] and [handle()].  The handle of a tensor
    that passed the target assertion wraps a GLES tensor, so the
    [polymorphic_cast] of [get_backing_tensor] is the identity on its
    address. *)
Record Tensor := {
  desc_target : Target;
  handle : option addr
}.

(** ** Nodes *)

(** The part of a node that [INode] declares.  A slot of [inputs] or
    [outputs] is [None] when the graph has no tensor there ([input(i)]
    returns a null pointer). *)
Record INode := {
  id : N;
  name : string;
  inputs : list (option Tensor);
  outputs : list (option Tensor)
}.

Definition num_inputs (node : INode) : nat := length (inputs node).
Definition num_outputs (node : INode) : nat := length (outputs node).

(** The concrete node classes with the accessors the factory reads.
    [OtherNode] is a node of a class the factory has no case for. *)
Inductive NodeClass :=
  | ActivationLayerNode (activation_info : ActivationLayerInfo)
  | BatchNormalizationLayerNode (epsilon : float) (fused_activation : ActivationLayerInfo)
  | ConvolutionLayerNode (convolution_info : PadStrideInfo) (convolution_method : ConvolutionMethod)
  | DepthConcatenateLayerNode (is_enabled : bool)
  | DepthwiseConvolutionLayerNode (convolution_info : PadStrideInfo)
      (depthwise_convolution_method : DepthwiseConvolutionMethod)
  | EltwiseLayerNode (eltwise_operation : EltwiseOperation) (convert_policy : ConvertPolicy)
  | FullyConnectedLayerNode
  | NormalizationLayerNode (normalization_info : NormalizationLayerInfo)
  | PoolingLayerNode (pooling_info : PoolingLayerInfo)
  | SoftmaxLayerNode (beta : float)
  | OtherNode (tag : N).

(** A node as the dispatcher receives it behind [INode *]: the common part
    and the dynamic class. *)
Record Node := {
  base : INode;
  class : NodeClass
}.

(** [INode::type()], fixed by the dynamic class. *)
Definition type (node : Node) : NodeType :=
  match class node with
  | ActivationLayerNode _ => ActivationLayer
  | BatchNormalizationLayerNode _ _ => BatchNormalizationLayer
  | ConvolutionLayerNode _ _ => ConvolutionLayer
  | DepthConcatenateLayerNode _ => DepthConcatenateLayer
  | DepthwiseConvolutionLayerNode _ _ => DepthwiseConvolutionLayer
  | EltwiseLayerNode _ _ => EltwiseLayer
  | FullyConnectedLayerNode => FullyConnectedLayer
  | NormalizationLayerNode _ => NormalizationLayer
  | PoolingLayerNode _ => PoolingLayer
  | SoftmaxLayerNode _ => SoftmaxLayer
  | OtherNode tag => OtherNodeType tag
  end.

(** ** Runtime functions *)

Definition MemoryManager := N.

Inductive FunctionClass :=
  | GCActivationLayer
  | GCBatchNormalizationLayer
  | GCDirectConvolutionLayer
  | GCConvolutionLayer
  | GCDepthConcatenateLayer
  | GCDepthwiseConvolutionLayer3x3
  | GCArithmeticAddition
  | GCPixelWiseMultiplication
  | GCFullyConnectedLayer
  | GCNormalizationLayer
  | GCPoolingLayer
  | GCSoftmaxLayer.

(** The arguments of a [configure] call, in the order of the call. *)
Inductive ConfigureArgs :=
  | ActivationArgs (input output : option addr) (act_info : ActivationLayerInfo)
  | BatchNormalizationArgs (input output mean var beta gamma : option addr)
      (epsilon : float) (fused_act : ActivationLayerInfo)
  | ConvolutionArgs (input weights biases output : option addr) (conv_info : PadStrideInfo)
  | DepthConcatenateArgs (inputs : list (option addr)) (output : option addr)
  | ArithmeticAdditionArgs (input1 input2 output : option addr) (policy : ConvertPolicy)
  | PixelWiseMultiplicationArgs (input1 input2 output : option addr) (scale : float)
  | FullyConnectedArgs (input weights biases output : option addr)
  | NormalizationArgs (input output : option addr) (norm_info : NormalizationLayerInfo)
  | PoolingArgs (input output : option addr) (pool_info : PoolingLayerInfo)
  | SoftmaxArgs (input output : option addr) (beta : float).

(** A function object.  [manager] is [None] for a default-constructed
    object and [Some mm] for one whose constructor was given the (possibly
    null) shared pointer [mm]; [configured] holds the arguments of its
    [configure] call once that was made. *)
Record IFunction := {
  function_class : FunctionClass;
  manager : option (option MemoryManager);
  configured : option ConfigureArgs
}.

(** ** State, aborts and the monad *)

Inductive Event :=
  | GetMemoryManager (target : Target)
  | MakeUnique (cls : FunctionClass) (mm : option (option MemoryManager))
  | Configure (cls : FunctionClass) (args : ConfigureArgs)
  | SetDataType (tensor : addr) (dt : DataType).

Record State := {
  tensors : gmap addr ITensorInfo;
  trace : list Event
}.

(** [ARM_COMPUTE_ERROR_ON(cond)] and [ARM_COMPUTE_ERROR(msg)]. *)
Inductive FatalError :=
  | AssertionFailed (cond : string)
  | Error (msg : string).

(** What C++ leaves undefined: [p->info()] through a null pointer, or
    through a handle whose tensor is gone. *)
Inductive UndefinedBehaviour :=
  | NullDereference
  | DanglingPointer (a : addr).

Inductive Outcome (A : Type) :=
  | Returned (a : A) (s : State)
  | Fatal (e : FatalError) (s : State)
  | Undefined (u : UndefinedBehaviour) (s : State).

Arguments Returned {A} a s.
Arguments Fatal {A} e s.
Arguments Undefined {A} u s.

Definition M (A : Type) : Type := State -> Outcome A.

Definition ret {A} (a : A) : M A := fun s => Returned a s.

Definition bind {A B} (m : M A) (f : A -> M B) : M B := fun s =>
  match m s with
  | Returned a s' => f a s'
  | Fatal e s' => Fatal e s'
  | Undefined u s' => Undefined u s'
  end.

Notation "'do' x <- m ; k" := (bind m (fun x => k))
  (at level 10, x name, m at level 100, k at level 200).
Notation "'run' m ; k" := (bind m (fun _ => k))
  (at level 10, m at level 100, k at level 200).

(** The state an outcome leaves behind, also when the call aborted. *)
Definition final_state {A} (o : Outcome A) : State :=
  match o with
  | Returned _ s => s
  | Fatal _ s => s
  | Undefined _ s => s
  end.

Definition is_fatal {A} (o : Outcome A) : bool :=
  match o with
  | Fatal _ _ => true
  | _ => false
  end.

Definition emit (e : Event) : M unit := fun s =>
  Returned tt {| tensors := tensors s; trace := trace s ++ [e] |}.

(** Modelled from the spec: the macro [ARM_COMPUTE_ERROR_ON] of
    arm_compute/core/Error.h is missing; a violated precondition is fatal
    and aborts the pass.  [cond] is the text of the asserted condition. *)
Definition ARM_COMPUTE_ERROR_ON (violated : bool) (cond : string) : M unit := fun s =>
  if violated then Fatal (AssertionFailed cond) s else Returned tt s.

(** Modelled from the spec: the macro [ARM_COMPUTE_ERROR] of
    arm_compute/core/Error.h is missing; it rejects with its message. *)
Definition ARM_COMPUTE_ERROR {A} (msg : string) : M A := fun s =>
  Fatal (Error msg) s.

(** [p->info()]. *)
Definition info (p : option addr) : M ITensorInfo := fun s =>
  match p with
  | None => Undefined NullDereference s
  | Some a =>
      match tensors s !! a with
      | Some i => Returned i s
      | None => Undefined (DanglingPointer a) s
      end
  end.

(** [p->info()->set_data_type(dt)]. *)
Definition info_set_data_type (p : option addr) (dt : DataType) : M unit :=
  do i <- info p;
  match p with
  | None => ret tt
  | Some a => fun s =>
      Returned tt {| tensors := <[a := set_data_type dt i]> (tensors s);
                     trace := trace s ++ [SetDataType a dt] |}
  end.

(** ** Collaborators declared outside the factory *)

(** The execution context: the registry of shared memory managers. *)
Record GraphContext := {
  memory_managers : Target -> option MemoryManager
}.

(** Modelled from the spec: [get_memory_manager] of
    arm_compute/graph/backends/Utils.h is missing; it looks a shared
    memory-manager handle up by backend tag, and the handle may be null. *)
Definition get_memory_manager (ctx : GraphContext) (target : Target)
  : M (option MemoryManager) :=
  run emit (GetMemoryManager target);
  ret (memory_managers ctx target).

(** Modelled from the spec: [INode::input] is missing; it hands out the
    tensor reference at a slot, null when the slot holds no tensor.  A slot
    index past the end is a precondition violation. *)
Definition node_input (node : INode) (idx : nat) : M (option Tensor) :=
  match inputs node !! idx with
  | Some t => ret t
  | None => fun s => Fatal (AssertionFailed "idx >= _inputs.size()") s
  end.

(** Modelled from the spec: [INode::output], as [node_input]. *)
Definition node_output (node : INode) (idx : nat) : M (option Tensor) :=
  match outputs node !! idx with
  | Some t => ret t
  | None => fun s => Fatal (AssertionFailed "idx >= _outputs.size()") s
  end.

(** [make_unique<F>()] and [make_unique<F>(mm)]: the constructors of the
    runtime functions belong to the runtime library; the call is recorded. *)
Definition make_unique (cls : FunctionClass) (mm : option (option MemoryManager))
  : M IFunction :=
  run emit (MakeUnique cls mm);
  ret {| function_class := cls; manager := mm; configured := None |}.

(** [func->configure(args...)]: kernel configuration belongs to the runtime
    library; the call and its arguments are recorded. *)
Definition configure (func : IFunction) (args : ConfigureArgs) : M IFunction :=
  run emit (Configure (function_class func) args);
  ret {| function_class := function_class func;
         manager := manager func;
         configured := Some args |}.

(** Modelled from the spec: [create_named_function] of
    arm_compute/graph/backends/Utils.h is missing; it constructs one unit
    of the class without a memory manager, configures it and pairs it with
    its name. *)
Definition create_named_function (cls : FunctionClass) (fname : string)
    (args : ConfigureArgs) : M (IFunction * string) :=
  do f <- make_unique cls None;
  do f <- configure f args;
  ret (f, fname).

(** Modelled from the spec: [create_named_memory_managed_function], as
    [create_named_function] with the memory manager handed to the
    constructor. *)
Definition create_named_memory_managed_function (cls : FunctionClass)
    (fname : string) (mm : option MemoryManager) (args : ConfigureArgs)
  : M (IFunction * string) :=
  do f <- make_unique cls (Some mm);
  do f <- configure f args;
  ret (f, fname).

(** ** The factory *)

(** [ARM_COMPUTE_LOG_GRAPH_VERBOSE(...)]: the line that opens every
    lowerer streams [node.id()] and [node.name()] and nothing else. *)
Definition ARM_COMPUTE_LOG_GRAPH_VERBOSE (node_id : N) (node_name : string) : M unit :=
  ret tt.

(** [get_backing_tensor], lines 54-67. *)
Definition get_backing_tensor (tensor : option Tensor) : M (option addr) :=
  match tensor with
  | Some t =>
      run ARM_COMPUTE_ERROR_ON (bool_decide (desc_target t <> GC))
            "tensor->desc().target != arm_compute::graph::Target::GC";
      ret (handle t)
  | None => ret None
  end.

Section Lowerers.

(** The logging macros expand to nothing unless the library is built with
    logging; with logging the streamed expression is evaluated. *)
Variable logging_enabled : bool.

(** [ARM_COMPUTE_LOG_GRAPH_INFO(...)]: [ptrs] are the tensors whose
    [info()] the streamed expression reads, in the order it reads them. *)
Definition ARM_COMPUTE_LOG_GRAPH_INFO (ptrs : list (option addr)) : M unit :=
  if logging_enabled
  then foldr (fun p k => run info p; k) (ret tt) ptrs
  else ret tt.

(** [create_activation_layer], lines 75-102. *)
Definition create_activation_layer (node : INode) (activation_info : ActivationLayerInfo)
  : M (option IFunction) :=
  run ARM_COMPUTE_LOG_GRAPH_VERBOSE (id node) (name node);
  run ARM_COMPUTE_ERROR_ON (bool_decide (num_inputs node <> 1)) "node.num_inputs() != 1";
  run ARM_COMPUTE_ERROR_ON (bool_decide (num_outputs node <> 1)) "node.num_outputs() != 1";
  do t <- node_input node 0;
  do input <- get_backing_tensor t;
  do t <- node_output node 0;
  do output <- get_backing_tensor t;
  let act_info := activation_info in
  do func <- make_unique GCActivationLayer None;
  do func <- configure func (ActivationArgs input output act_info);
  run ARM_COMPUTE_LOG_GRAPH_INFO [input; input];
  ret (Some func).

(** [create_batch_normalization_layer], lines 110-141. *)
Definition create_batch_normalization_layer (node : INode) (node_epsilon : float)
    (fused_activation : ActivationLayerInfo) : M (option IFunction) :=
  run ARM_COMPUTE_LOG_GRAPH_VERBOSE (id node) (name node);
  run ARM_COMPUTE_ERROR_ON (bool_decide (num_inputs node <> 5)) "node.num_inputs() != 5";
  run ARM_COMPUTE_ERROR_ON (bool_decide (num_outputs node <> 1)) "node.num_outputs() != 1";
  do t <- node_input node 0;
  do input <- get_backing_tensor t;
  do t <- node_input node 1;
  do mean <- get_backing_tensor t;
  do t <- node_input node 2;
  do var <- get_backing_tensor t;
  do t <- node_input node 3;
  do beta <- get_backing_tensor t;
  do t <- node_input node 4;
  do gamma <- get_backing_tensor t;
  do t <- node_output node 0;
  do output <- get_backing_tensor t;
  let epsilon := node_epsilon in
  let fused_act := fused_activation in
  do func <- make_unique GCBatchNormalizationLayer None;
  do func <- configure func
               (BatchNormalizationArgs input output mean var beta gamma epsilon fused_act);
  run ARM_COMPUTE_LOG_GRAPH_INFO [input; input];
  ret (Some func).

(** [create_convolution_layer], lines 149-195. *)
Definition create_convolution_layer (node : INode) (convolution_info : PadStrideInfo)
    (convolution_method : ConvolutionMethod) (ctx : GraphContext) : M (option IFunction) :=
  run ARM_COMPUTE_LOG_GRAPH_VERBOSE (id node) (name node);
  run ARM_COMPUTE_ERROR_ON (bool_decide (num_inputs node <> 3)) "node.num_inputs() != 3";
  run ARM_COMPUTE_ERROR_ON (bool_decide (num_outputs node <> 1)) "node.num_outputs() != 1";
  do t <- node_input node 0;
  do input <- get_backing_tensor t;
  do t <- node_input node 1;
  do weights <- get_backing_tensor t;
  do t <- node_input node 2;
  do biases <- get_backing_tensor t;
  do t <- node_output node 0;
  do output <- get_backing_tensor t;
  do i <- info input;
  run (if is_data_type_quantized_asymmetric (data_type i)
       then info_set_data_type biases S32
       else ret tt);
  let conv_info := convolution_info in
  let conv_algorithm := convolution_method in
  do mm <- get_memory_manager ctx GC;
  do named <-
    match conv_algorithm with
    | DIRECT =>
        create_named_function GCDirectConvolutionLayer "GCDirectConvolutionLayer"
          (ConvolutionArgs input weights biases output conv_info)
    | _ =>
        create_named_memory_managed_function GCConvolutionLayer "GCConvolutionLayer" mm
          (ConvolutionArgs input weights biases output conv_info)
    end;
  run ARM_COMPUTE_LOG_GRAPH_INFO [input; input; weights; input; weights; output];
  ret (Some (fst named)).

(** [create_depth_concatenate_layer], lines 203-234.  The loop over the
    input slots is the recursion of [resolve_inputs] over the slot
    indices. *)
Fixpoint resolve_inputs (node : INode) (indices : list nat) (acc : list (option addr))
  : M (list (option addr)) :=
  match indices with
  | [] => ret acc
  | i :: rest =>
      do t <- node_input node i;
      do b <- get_backing_tensor t;
      resolve_inputs node rest (acc ++ [b])
  end.

Definition create_depth_concatenate_layer (node : INode) (is_enabled : bool)
  : M (option IFunction) :=
  run ARM_COMPUTE_LOG_GRAPH_VERBOSE (id node) (name node);
  run ARM_COMPUTE_ERROR_ON (bool_decide (num_outputs node <> 1)) "node.num_outputs() != 1";
  if negb is_enabled then ret None
  else
    do inputs <- resolve_inputs node (seq 0 (num_inputs node)) [];
    do t <- node_output node 0;
    do output <- get_backing_tensor t;
    do func <- make_unique GCDepthConcatenateLayer None;
    do func <- configure func (DepthConcatenateArgs inputs output);
    run ARM_COMPUTE_LOG_GRAPH_INFO [output; output];
    ret (Some func).

(** [create_depthwise_convolution_layer], lines 242-287. *)
Definition create_depthwise_convolution_layer (node : INode)
    (convolution_info : PadStrideInfo)
    (depthwise_convolution_method : DepthwiseConvolutionMethod) : M (option IFunction) :=
  run ARM_COMPUTE_LOG_GRAPH_VERBOSE (id node) (name node);
  run ARM_COMPUTE_ERROR_ON (bool_decide (num_inputs node <> 3)) "node.num_inputs() != 3";
  run ARM_COMPUTE_ERROR_ON (bool_decide (num_outputs node <> 1)) "node.num_outputs() != 1";
  do t <- node_input node 0;
  do input <- get_backing_tensor t;
  do t <- node_input node 1;
  do weights <- get_backing_tensor t;
  do t <- node_input node 2;
  do biases <- get_backing_tensor t;
  do t <- node_output node 0;
  do output <- get_backing_tensor t;
  do i <- info input;
  run (if is_data_type_quantized_asymmetric (data_type i)
       then info_set_data_type biases S32
       else ret tt);
  let conv_info := convolution_info in
  let dwc_algorithm := depthwise_convolution_method in
  do named <-
    match dwc_algorithm with
    | OPTIMIZED_3x3 =>
        create_named_function GCDepthwiseConvolutionLayer3x3 "GCDepthwiseConvolutionLayer3x3"
          (ConvolutionArgs input weights biases output conv_info)
    | _ =>
        ARM_COMPUTE_ERROR "Generic DepthwiseConvolutionLayer is not supported in GLES backend"
    end;
  run ARM_COMPUTE_LOG_GRAPH_INFO [input; input; weights; input; weights; output];
  ret (Some (fst named)).

(** [create_eltwise_layer], lines 295-341. *)
Definition create_eltwise_layer (node : INode) (eltwise_operation : EltwiseOperation)
    (node_convert_policy : ConvertPolicy) : M (option IFunction) :=
  run ARM_COMPUTE_LOG_GRAPH_VERBOSE (id node) (name node);
  run ARM_COMPUTE_ERROR_ON (bool_decide (num_inputs node <> 2)) "node.num_inputs() != 2";
  run ARM_COMPUTE_ERROR_ON (bool_decide (num_outputs node <> 1)) "node.num_outputs() != 1";
  do t <- node_input node 0;
  do input1 <- get_backing_tensor t;
  do t <- node_input node 1;
  do input2 <- get_backing_tensor t;
  do t <- node_output node 0;
  do output <- get_backing_tensor t;
  let eltwise_op := eltwise_operation in
  let convert_policy := node_convert_policy in
  run ARM_COMPUTE_ERROR_ON (bool_decide (input1 = None)) "input1 == nullptr";
  run ARM_COMPUTE_ERROR_ON (bool_decide (input2 = None)) "input2 == nullptr";
  run ARM_COMPUTE_ERROR_ON (bool_decide (output = None)) "output == nullptr";
  do named <-
    match eltwise_op with
    | ADD =>
        create_named_function GCArithmeticAddition "GCArithmeticAddition"
          (ArithmeticAdditionArgs input1 input2 output convert_policy)
    | SUB =>
        ARM_COMPUTE_ERROR "Arithmetic subtraction is not supported in GLES backend"
    | MUL =>
        create_named_function GCPixelWiseMultiplication "GCPixelWiseMultiplication"
          (PixelWiseMultiplicationArgs input1 input2 output float_one)
    | _ =>
        ARM_COMPUTE_ERROR "Unsupported element-wise operation!"
    end;
  run ARM_COMPUTE_LOG_GRAPH_INFO [input1; input1];
  ret (Some (fst named)).

(** [create_fully_connected_layer], lines 349-380. *)
Definition create_fully_connected_layer (node : INode) (ctx : GraphContext)
  : M (option IFunction) :=
  run ARM_COMPUTE_LOG_GRAPH_VERBOSE (id node) (name node);
  run ARM_COMPUTE_ERROR_ON (bool_decide (num_inputs node <> 3)) "node.num_inputs() != 3";
  run ARM_COMPUTE_ERROR_ON (bool_decide (num_outputs node <> 1)) "node.num_outputs() != 1";
  do t <- node_input node 0;
  do input <- get_backing_tensor t;
  do t <- node_input node 1;
  do weights <- get_backing_tensor t;
  do t <- node_input node 2;
  do biases <- get_backing_tensor t;
  do t <- node_output node 0;
  do output <- get_backing_tensor t;
  do mm <- get_memory_manager ctx GC;
  do func <- make_unique GCFullyConnectedLayer (Some mm);
  do func <- configure func (FullyConnectedArgs input weights biases output);
  run ARM_COMPUTE_ERROR_ON (bool_decide (input = None)) "input == nullptr";
  run ARM_COMPUTE_ERROR_ON (bool_decide (weights = None)) "weights == nullptr";
  run ARM_COMPUTE_ERROR_ON (bool_decide (output = None)) "output == nullptr";
  run ARM_COMPUTE_LOG_GRAPH_INFO [input; input; weights; biases; output];
  ret (Some func).

(** [create_normalization_layer], lines 388-415. *)
Definition create_normalization_layer (node : INode)
    (normalization_info : NormalizationLayerInfo) : M (option IFunction) :=
  run ARM_COMPUTE_LOG_GRAPH_VERBOSE (id node) (name node);
  run ARM_COMPUTE_ERROR_ON (bool_decide (num_inputs node <> 1)) "node.num_inputs() != 1";
  run ARM_COMPUTE_ERROR_ON (bool_decide (num_outputs node <> 1)) "node.num_outputs() != 1";
  do t <- node_input node 0;
  do input <- get_backing_tensor t;
  do t <- node_output node 0;
  do output <- get_backing_tensor t;
  let norm_info := normalization_info in
  run ARM_COMPUTE_ERROR_ON (bool_decide (input = None)) "input == nullptr";
  run ARM_COMPUTE_ERROR_ON (bool_decide (output = None)) "output == nullptr";
  do func <- make_unique GCNormalizationLayer None;
  do func <- configure func (NormalizationArgs input output norm_info);
  run ARM_COMPUTE_LOG_GRAPH_INFO [input; input; output];
  ret (Some func).

(** [create_pooling_layer], lines 423-450. *)
Definition create_pooling_layer (node : INode) (pooling_info : PoolingLayerInfo)
  : M (option IFunction) :=
  run ARM_COMPUTE_LOG_GRAPH_VERBOSE (id node) (name node);
  run ARM_COMPUTE_ERROR_ON (bool_decide (num_inputs node <> 1)) "node.num_inputs() != 1";
  run ARM_COMPUTE_ERROR_ON (bool_decide (num_outputs node <> 1)) "node.num_outputs() != 1";
  do t <- node_input node 0;
  do input <- get_backing_tensor t;
  do t <- node_output node 0;
  do output <- get_backing_tensor t;
  let pool_info := pooling_info in
  run ARM_COMPUTE_ERROR_ON (bool_decide (input = None)) "input == nullptr";
  run ARM_COMPUTE_ERROR_ON (bool_decide (output = None)) "output == nullptr";
  do func <- make_unique GCPoolingLayer None;
  do func <- configure func (PoolingArgs input output pool_info);
  run ARM_COMPUTE_LOG_GRAPH_INFO [input; input; output];
  ret (Some func).

(** [create_softmax_layer], lines 458-484. *)
Definition create_softmax_layer (node : INode) (node_beta : float) (ctx : GraphContext)
  : M (option IFunction) :=
  run ARM_COMPUTE_LOG_GRAPH_VERBOSE (id node) (name node);
  run ARM_COMPUTE_ERROR_ON (bool_decide (num_inputs node <> 1)) "node.num_inputs() != 1";
  run ARM_COMPUTE_ERROR_ON (bool_decide (num_outputs node <> 1)) "node.num_outputs() != 1";
  do t <- node_input node 0;
  do input <- get_backing_tensor t;
  do t <- node_output node 0;
  do output <- get_backing_tensor t;
  let beta := node_beta in
  run ARM_COMPUTE_ERROR_ON (bool_decide (input = None)) "input == nullptr";
  run ARM_COMPUTE_ERROR_ON (bool_decide (output = None)) "output == nullptr";
  do mm <- get_memory_manager ctx CL;
  do func <- make_unique GCSoftmaxLayer (Some mm);
  do func <- configure func (SoftmaxArgs input output beta);
  run ARM_COMPUTE_LOG_GRAPH_INFO [input; input; output];
  ret (Some func).

(** [GCFunctionFactory::create], lines 487-520.  The switch is over
    [node->type()]; each [polymorphic_downcast] reaches the accessors of
    the class that reports the type. *)
Definition create (node : option Node) (ctx : GraphContext) : M (option IFunction) :=
  match node with
  | None => ret None
  | Some node =>
      match type node, class node with
      | ActivationLayer, ActivationLayerNode act =>
          create_activation_layer (base node) act
      | BatchNormalizationLayer, BatchNormalizationLayerNode eps act =>
          create_batch_normalization_layer (base node) eps act
      | ConvolutionLayer, ConvolutionLayerNode conv_info method =>
          create_convolution_layer (base node) conv_info method ctx
      | DepthConcatenateLayer, DepthConcatenateLayerNode enabled =>
          create_depth_concatenate_layer (base node) enabled
      | DepthwiseConvolutionLayer, DepthwiseConvolutionLayerNode conv_info method =>
          create_depthwise_convolution_layer (base node) conv_info method
      | EltwiseLayer, EltwiseLayerNode op policy =>
          create_eltwise_layer (base node) op policy
      | FullyConnectedLayer, FullyConnectedLayerNode =>
          create_fully_connected_layer (base node) ctx
      | NormalizationLayer, NormalizationLayerNode norm_info =>
          create_normalization_layer (base node) norm_info
      | PoolingLayer, PoolingLayerNode pool_info =>
          create_pooling_layer (base node) pool_info
      | SoftmaxLayer, SoftmaxLayerNode b =>
          create_softmax_layer (base node) b ctx
      | _, _ => ret None
      end
  end.

End Lowerers.

(** ** Vocabulary of the properties *)

(** The ten kinds the dispatcher has a case for. *)
Definition supported (t : NodeType) : bool :=
  match t with
  | OtherNodeType _ => false
  | _ => true
  end.

(** The fixed arity of a kind: the input count ([None] when any count is
    accepted) and the output count. *)
Definition fixed_arity (t : NodeType) : option (option nat * nat) :=
  match t with
  | ActivationLayer => Some (Some 1, 1)
  | BatchNormalizationLayer => Some (Some 5, 1)
  | ConvolutionLayer => Some (Some 3, 1)
  | DepthConcatenateLayer => Some (None, 1)
  | DepthwiseConvolutionLayer => Some (Some 3, 1)
  | EltwiseLayer => Some (Some 2, 1)
  | FullyConnectedLayer => Some (Some 3, 1)
  | NormalizationLayer => Some (Some 1, 1)
  | PoolingLayer => Some (Some 1, 1)
  | SoftmaxLayer => Some (Some 1, 1)
  | OtherNodeType _ => None
  end.

Definition has_fixed_arity (node : Node) : bool :=
  match fixed_arity (type node) with
  | Some (Some n_in, n_out) =>
      bool_decide (num_inputs (base node) = n_in)
      && bool_decide (num_outputs (base node) = n_out)
  | Some (None, n_out) => bool_decide (num_outputs (base node) = n_out)
  | None => true
  end.

(** A slot that [get_backing_tensor] accepts: no tensor, or a tensor
    declared for the GLES target. *)
Definition slot_ok (t : option Tensor) : Prop :=
  match t with
  | Some t' => desc_target t' = GC
  | None => True
  end.

(** The backing tensor a slot resolves to; [None] is the null pointer. *)
Definition backing (t : option Tensor) : option addr :=
  match t with
  | Some t' => handle t'
  | None => None
  end.

(** The slot resolves to the valid backing tensor at [a]. *)
Definition resolves (s : State) (t : option Tensor) (a : addr) : Prop :=
  slot_ok t /\ backing t = Some a /\ is_Some (tensors s !! a).

(** Number of [set_data_type] calls made on the tensor at [b]. *)
Definition coercions (b : addr) (tr : list Event) : nat :=
  length (List.filter (fun e => match e with
                                | SetDataType a _ => bool_decide (a = b)
                                | _ => false
                                end) tr).

(** Number of function objects constructed. *)
Definition constructions (tr : list Event) : nat :=
  length (List.filter (fun e => match e with
                                | MakeUnique _ _ => true
                                | _ => false
                                end) tr).

(** The calls recorded after the trace [before]. *)
Definition new_events (before : State) (after : State) : list Event :=
  drop (length (trace before)) (trace after).

(** Some call configured a function with a null pointer among its tensor
    arguments. *)
Definition null_operand (args : ConfigureArgs) : bool :=
  match args with
  | ActivationArgs i o _ => bool_decide (None ∈ [i; o])
  | BatchNormalizationArgs i o m v b g _ _ => bool_decide (None ∈ [i; o; m; v; b; g])
  | ConvolutionArgs i w b o _ => bool_decide (None ∈ [i; w; b; o])
  | DepthConcatenateArgs ins o => bool_decide (None ∈ o :: ins)
  | ArithmeticAdditionArgs i1 i2 o _ => bool_decide (None ∈ [i1; i2; o])
  | PixelWiseMultiplicationArgs i1 i2 o _ => bool_decide (None ∈ [i1; i2; o])
  | FullyConnectedArgs i w b o => bool_decide (None ∈ [i; w; b; o])
  | NormalizationArgs i o _ => bool_decide (None ∈ [i; o])
  | PoolingArgs i o _ => bool_decide (None ∈ [i; o])
  | SoftmaxArgs i o _ => bool_decide (None ∈ [i; o])
  end.

Definition configured_with_null (tr : list Event) : bool :=
  existsb (fun e => match e with
                    | Configure _ args => null_operand args
                    | _ => false
                    end) tr.

(** The state after lines 161-164 (256-259): the bias descriptor is set to
    S32 when the datatype of the primary input is quantized asymmetric. *)
Definition coerced (s : State) (input_dt : DataType) (b : addr) (ib : ITensorInfo) : State :=
  if is_data_type_quantized_asymmetric input_dt
  then {| tensors := <[b := set_data_type S32 ib]> (tensors s);
          trace := trace s ++ [SetDataType b S32] |}
  else s.

(** ** Vocabulary of the frame properties *)

(** The computation leaves every tensor descriptor as it found it,
    whatever its outcome. *)
Definition keeps_tensors {A} (m : M A) : Prop :=
  forall s, tensors (final_state (m s)) = tensors s.

(** The computation only appends to the trace; the appended events all
    satisfy [Q] and at most [n] of them construct a function object. *)
Definition extends {A} (Q : Event -> Prop) (n : nat) (m : M A) : Prop :=
  forall s, exists tr,
    trace (final_state (m s)) = trace s ++ tr
    /\ Forall Q tr
    /\ constructions tr <= n.

(** The memory-manager lookups a node of the given kind may make. *)
Definition lookup_allowed (t : NodeType) (e : Event) : Prop :=
  match e with
  | GetMemoryManager target =>
      match t with
      | ConvolutionLayer | FullyConnectedLayer => target = GC
      | SoftmaxLayer => target = CL
      | _ => False
      end
  | SetDataType _ dt =>
      match t with
      | ConvolutionLayer | DepthwiseConvolutionLayer => dt = S32
      | _ => False
      end
  | _ => True
  end.

(** The slot holds a tensor of the GLES target with valid backing
    storage. *)
Definition valid_slot (s : State) (t : option Tensor) : Prop :=
  exists a, resolves s t a.

(** The class of the unit a node lowers to; [None] for the nodes that
    yield no unit: a switched-off concatenation, the depthwise and
    elementwise variants the backend rejects, and the kinds without a
    case. *)
Definition unit_class (c : NodeClass) : option FunctionClass :=
  match c with
  | ActivationLayerNode _ => Some GCActivationLayer
  | BatchNormalizationLayerNode _ _ => Some GCBatchNormalizationLayer
  | ConvolutionLayerNode _ DIRECT => Some GCDirectConvolutionLayer
  | ConvolutionLayerNode _ _ => Some GCConvolutionLayer
  | DepthConcatenateLayerNode true => Some GCDepthConcatenateLayer
  | DepthConcatenateLayerNode false => None
  | DepthwiseConvolutionLayerNode _ OPTIMIZED_3x3 => Some GCDepthwiseConvolutionLayer3x3
  | DepthwiseConvolutionLayerNode _ _ => None
  | EltwiseLayerNode ADD _ => Some GCArithmeticAddition
  | EltwiseLayerNode MUL _ => Some GCPixelWiseMultiplication
  | EltwiseLayerNode _ _ => None
  | FullyConnectedLayerNode => Some GCFullyConnectedLayer
  | NormalizationLayerNode _ => Some GCNormalizationLayer
  | PoolingLayerNode _ => Some GCPoolingLayer
  | SoftmaxLayerNode _ => Some GCSoftmaxLayer
  | OtherNode _ => None
  end.

(** How a build with logging relates to one without, on the same call:
    the outcomes are equal, or the logging build ran into a bad pointer in
    a log statement at the point where the other build returned. *)
Definition log_differs_only_by_crash {A} (with_log without_log : M A) : Prop :=
  forall s,
    with_log s = without_log s
    \/ exists u x s', with_log s = Undefined u s' /\ without_log s = Returned x s'.

(** A unit the computation returns was constructed and then configured
    by the last two recorded calls, with the manager and the arguments it
    carries. *)
Definition delivers_configured (m : M (option IFunction)) : Prop :=
  forall s u s',
    m s = Returned (Some u) s' ->
    exists args before,
      configured u = Some args
      /\ trace s' = before ++ [MakeUnique (function_class u) (manager u);
                               Configure (function_class u) args].

(** ** Sample tensors and nodes *)

(** A tensor declared for the GLES target with the given handle. *)
Definition gc_tensor (h : option addr) : option Tensor :=
  Some {| desc_target := GC; handle := h |}.

Definition sample_info (dt : DataType) : ITensorInfo :=
  {| data_type := dt; tensor_shape := [1; 8; 8; 3]%N |}.

(** Four backing tensors: data at 1 with datatype [dt], weights at 2, a
    bias declared as 8-bit signed at 3, and an output at 4. *)
Definition sample_state (dt : DataType) : State :=
  {| tensors := list_to_map [(1%positive, sample_info dt); (2%positive, sample_info dt);
                             (3%positive, sample_info S8); (4%positive, sample_info dt)];
     trace := [] |}.

Definition sample_node (ins outs : list (option Tensor)) : INode :=
  {| id := 7; name := "sample"; inputs := ins; outputs := outs |}.

(** One input, one output. *)
Definition unary_node : INode :=
  sample_node [gc_tensor (Some 1%positive)] [gc_tensor (Some 4%positive)].

(** Two inputs, one output. *)
Definition binary_node : INode :=
  sample_node [gc_tensor (Some 1%positive); gc_tensor (Some 2%positive)]
              [gc_tensor (Some 4%positive)].

(** Data, weights and bias, one output. *)
Definition ternary_node : INode :=
  sample_node [gc_tensor (Some 1%positive); gc_tensor (Some 2%positive);
               gc_tensor (Some 3%positive)]
              [gc_tensor (Some 4%positive)].

(** One input whose tensor has no backing storage, one output. *)
Definition unbacked_input_node : INode :=
  sample_node [gc_tensor None] [gc_tensor (Some 4%positive)].

(** Data and weights, a bias without backing storage, one output. *)
Definition unbacked_bias_node : INode :=
  sample_node [gc_tensor (Some 1%positive); gc_tensor (Some 2%positive); gc_tensor None]
              [gc_tensor (Some 4%positive)].

(** One input declared for another backend and without storage, and an
    output slot that holds no tensor. *)
Definition foreign_node : INode :=
  sample_node [Some {| desc_target := CL; handle := None |}] [None].

(** A context with one memory manager per compute backend. *)
Definition sample_ctx : GraphContext :=
  {| memory_managers := fun t => match t with
                                 | GC => Some 11%N
                                 | CL => Some 22%N
                                 | _ => None
                                 end |}.

Definition sample_relu : ActivationLayerInfo :=
  {| activation := RELU; act_a := 0%N; act_b := 0%N; act_enabled := true |}.

Definition sample_conv_info : PadStrideInfo := {| stride := (1, 1)%N; pad := (0, 0)%N |}.

(** ** Basic facts *)

Lemma bind_returned {A B} (m : M A) (f : A -> M B) s a s' :
  m s = Returned a s' -> bind m f s = f a s'.
Proof. unfold bind. intros ->. reflexivity. Qed.

Lemma bind_fatal {A B} (m : M A) (f : A -> M B) s e s' :
  m s = Fatal e s' -> bind m f s = Fatal e s'.
Proof. unfold bind. intros ->. reflexivity. Qed.

Lemma skip_verbose {A} node_id node_name (rest : M A) s :
  bind (ARM_COMPUTE_LOG_GRAPH_VERBOSE node_id node_name) (fun _ => rest) s = rest s.
Proof. reflexivity. Qed.

Lemma get_backing_tensor_ok t s :
  slot_ok t -> get_backing_tensor t s = Returned (backing t) s.
Proof.
  destruct t as [[tg h]|]; simpl; [|reflexivity].
  intros ->. reflexivity.
Qed.

Lemma get_backing_tensor_mismatch t s :
  desc_target t <> GC ->
  exists c, get_backing_tensor (Some t) s = Fatal (AssertionFailed c) s.
Proof.
  intros Hne. eexists. unfold get_backing_tensor.
  apply bind_fatal. unfold ARM_COMPUTE_ERROR_ON.
  rewrite bool_decide_eq_true_2 by exact Hne. reflexivity.
Qed.

Lemma type_supported node :
  supported (type node) = false <-> exists tag, class node = OtherNode tag.
Proof.
  unfold type. destruct (class node); simpl; split;
    try discriminate; try (intros [? ?]; discriminate); eauto.
Qed.

(** ** Dispatch *)

(** C1: the dispatcher returns a null unit for a null node and for a node
    of a kind outside the ten supported ones, leaving the state as it was
    (nothing is raised, nothing is recorded); a node of a supported kind is
    handed to the lowerer of its kind. *)
Theorem create_dispatch (log : bool) (ctx : GraphContext) (s : State) :
  create log None ctx s = Returned None s
  /\ (forall node, supported (type node) = false ->
        create log (Some node) ctx s = Returned None s)
  /\ (forall node,
        create log (Some node) ctx =
        match class node with
        | ActivationLayerNode act => create_activation_layer log (base node) act
        | BatchNormalizationLayerNode eps act =>
            create_batch_normalization_layer log (base node) eps act
        | ConvolutionLayerNode conv_info method =>
            create_convolution_layer log (base node) conv_info method ctx
        | DepthConcatenateLayerNode enabled =>
            create_depth_concatenate_layer log (base node) enabled
        | DepthwiseConvolutionLayerNode conv_info method =>
            create_depthwise_convolution_layer log (base node) conv_info method
        | EltwiseLayerNode op policy => create_eltwise_layer log (base node) op policy
        | FullyConnectedLayerNode => create_fully_connected_layer log (base node) ctx
        | NormalizationLayerNode norm_info =>
            create_normalization_layer log (base node) norm_info
        | PoolingLayerNode pool_info => create_pooling_layer log (base node) pool_info
        | SoftmaxLayerNode b => create_softmax_layer log (base node) b ctx
        | OtherNode _ => ret None
        end).
Proof.
  split; [reflexivity|]. split.
  - intros node Hn. apply type_supported in Hn as [tag Htag].
    unfold create, type. rewrite Htag. reflexivity.
  - intros node. unfold create, type. destruct (class node); reflexivity.
Qed.

Lemma create_dispatch_witness :
  create false (Some {| base := unary_node; class := OtherNode 3 |}) sample_ctx
         (sample_state F32)
  = Returned None (sample_state F32).
Proof.
  destruct (create_dispatch false sample_ctx (sample_state F32)) as (_ & Hother & _).
  apply Hother. reflexivity.
Defined.

(** ** Arity *)

Lemma error_on_arity {A} (n k : nat) cond (rest : M A) s :
  n <> k ->
  bind (ARM_COMPUTE_ERROR_ON (bool_decide (n <> k)) cond) (fun _ => rest) s
  = Fatal (AssertionFailed cond) s.
Proof.
  intros Hne. apply bind_fatal. unfold ARM_COMPUTE_ERROR_ON.
  rewrite bool_decide_eq_true_2 by exact Hne. reflexivity.
Qed.

Lemma pass_arity {A} (n : nat) cond (rest : M A) s :
  bind (ARM_COMPUTE_ERROR_ON (bool_decide (n <> n)) cond) (fun _ => rest) s = rest s.
Proof.
  unfold bind, ARM_COMPUTE_ERROR_ON.
  rewrite bool_decide_eq_false_2 by (intros H; apply H; reflexivity). reflexivity.
Qed.

Ltac arity_case n k :=
  let e := fresh "Harity" in
  destruct (decide (n = k)) as [e|?];
  [rewrite e, pass_arity | eexists; apply error_on_arity; assumption].

(** C2: a node of a supported kind whose input or output count is not the
    fixed arity of its kind makes the lowering abort on an assertion; the
    abort comes before anything is resolved or constructed, so the state is
    the one the call started in.  Depth concatenation accepts any input
    count and is held to its one output. *)
Theorem arity_mismatch_fatal (log : bool) (node : Node) (ctx : GraphContext) (s : State) :
  supported (type node) = true ->
  has_fixed_arity node = false ->
  exists cond, create log (Some node) ctx s = Fatal (AssertionFailed cond) s.
Proof.
  destruct node as [b c]. unfold has_fixed_arity, create, type. simpl.
  intros Hsup Har.
  destruct c; simpl in Hsup, Har; try discriminate;
    try (apply andb_false_iff in Har;
         rewrite !bool_decide_eq_false in Har);
    try rewrite bool_decide_eq_false in Har.
  - unfold create_activation_layer. rewrite skip_verbose.
    arity_case (num_inputs b) 1. arity_case (num_outputs b) 1. destruct Har; congruence.
  - unfold create_batch_normalization_layer. rewrite skip_verbose.
    arity_case (num_inputs b) 5. arity_case (num_outputs b) 1. destruct Har; congruence.
  - unfold create_convolution_layer. rewrite skip_verbose.
    arity_case (num_inputs b) 3. arity_case (num_outputs b) 1. destruct Har; congruence.
  - unfold create_depth_concatenate_layer. rewrite skip_verbose.
    eexists. apply error_on_arity. assumption.
  - unfold create_depthwise_convolution_layer. rewrite skip_verbose.
    arity_case (num_inputs b) 3. arity_case (num_outputs b) 1. destruct Har; congruence.
  - unfold create_eltwise_layer. rewrite skip_verbose.
    arity_case (num_inputs b) 2. arity_case (num_outputs b) 1. destruct Har; congruence.
  - unfold create_fully_connected_layer. rewrite skip_verbose.
    arity_case (num_inputs b) 3. arity_case (num_outputs b) 1. destruct Har; congruence.
  - unfold create_normalization_layer. rewrite skip_verbose.
    arity_case (num_inputs b) 1. arity_case (num_outputs b) 1. destruct Har; congruence.
  - unfold create_pooling_layer. rewrite skip_verbose.
    arity_case (num_inputs b) 1. arity_case (num_outputs b) 1. destruct Har; congruence.
  - unfold create_softmax_layer. rewrite skip_verbose.
    arity_case (num_inputs b) 1. arity_case (num_outputs b) 1. destruct Har; congruence.
Qed.

Lemma arity_mismatch_fatal_witness :
  exists cond,
    create true (Some {| base := binary_node; class := DepthwiseConvolutionLayerNode
                                                          sample_conv_info OPTIMIZED_3x3 |})
           sample_ctx (sample_state F32)
    = Fatal (AssertionFailed cond) (sample_state F32).
Proof.
  apply (arity_mismatch_fatal true
           {| base := binary_node;
              class := DepthwiseConvolutionLayerNode sample_conv_info OPTIMIZED_3x3 |}
           sample_ctx (sample_state F32)); reflexivity.
Defined.

(** ** Symbolic execution of a lowerer *)

Lemma pass_null_check {A} (a : addr) cond (rest : M A) s :
  bind (ARM_COMPUTE_ERROR_ON (bool_decide (Some a = None)) cond) (fun _ => rest) s
  = rest s.
Proof.
  unfold bind, ARM_COMPUTE_ERROR_ON.
  rewrite bool_decide_eq_false_2 by discriminate. reflexivity.
Qed.

Lemma fail_null_check {A} cond (rest : M A) s :
  bind (ARM_COMPUTE_ERROR_ON (bool_decide (@None addr = None)) cond) (fun _ => rest) s
  = Fatal (AssertionFailed cond) s.
Proof.
  apply bind_fatal. unfold ARM_COMPUTE_ERROR_ON.
  rewrite bool_decide_eq_true_2 by reflexivity. reflexivity.
Qed.

Lemma resolve_slot {A} t (rest : option addr -> M A) s :
  slot_ok t ->
  bind (get_backing_tensor t) rest s = rest (backing t) s.
Proof. intros Hok. unfold bind. rewrite get_backing_tensor_ok by exact Hok. reflexivity. Qed.

Lemma bind_ret {A B} (a : A) (f : A -> M B) s : bind (ret a) f s = f a s.
Proof. reflexivity. Qed.

Lemma info_live a i s : tensors s !! a = Some i -> info (Some a) s = Returned i s.
Proof. unfold info. intros ->. reflexivity. Qed.

(** Reading [info()] of valid tensors for the log changes nothing. *)
Lemma log_live log ptrs s :
  Forall (fun p => exists a, p = Some a /\ is_Some (tensors s !! a)) ptrs ->
  ARM_COMPUTE_LOG_GRAPH_INFO log ptrs s = Returned tt s.
Proof.
  unfold ARM_COMPUTE_LOG_GRAPH_INFO. destruct log; [|reflexivity].
  induction 1 as [|p ptrs (a & -> & i & Hi) _ IH]; [reflexivity|].
  simpl. erewrite bind_returned by (apply info_live; exact Hi). exact IH.
Qed.

Lemma log_skip {A} log ptrs (rest : M A) s :
  Forall (fun p => exists a, p = Some a /\ is_Some (tensors s !! a)) ptrs ->
  bind (ARM_COMPUTE_LOG_GRAPH_INFO log ptrs) (fun _ => rest) s = rest s.
Proof. intros H. unfold bind. rewrite log_live by exact H. reflexivity. Qed.

Lemma create_named_function_run cls fname args s :
  create_named_function cls fname args s =
  Returned ({| function_class := cls; manager := None; configured := Some args |}, fname)
           {| tensors := tensors s;
              trace := trace s ++ [MakeUnique cls None; Configure cls args] |}.
Proof.
  unfold create_named_function, make_unique, configure, emit, bind, ret. simpl.
  rewrite <- app_assoc. reflexivity.
Qed.

Lemma create_named_memory_managed_function_run cls fname mm args s :
  create_named_memory_managed_function cls fname mm args s =
  Returned ({| function_class := cls; manager := Some mm; configured := Some args |}, fname)
           {| tensors := tensors s;
              trace := trace s ++ [MakeUnique cls (Some mm); Configure cls args] |}.
Proof.
  unfold create_named_memory_managed_function, make_unique, configure, emit, bind, ret.
  simpl. rewrite <- app_assoc. reflexivity.
Qed.

Lemma make_and_configure {A} cls mm args (rest : IFunction -> M A) s :
  bind (make_unique cls mm) (fun func => bind (configure func args) rest) s =
  rest {| function_class := cls; manager := mm; configured := Some args |}
       {| tensors := tensors s;
          trace := trace s ++ [MakeUnique cls mm; Configure cls args] |}.
Proof.
  unfold make_unique, configure, emit, bind, ret. simpl.
  rewrite <- app_assoc. reflexivity.
Qed.

Ltac valid_pointers :=
  repeat constructor; eexists; (split; [reflexivity | simpl; eauto]).

(** Unfolds the slot accessors on a node whose slots are known and
    resolves each slot that is known to pass the target assertion. *)
Ltac open_node Hin Hout :=
  unfold num_inputs, num_outputs, node_input, node_output;
  rewrite ?Hin, ?Hout; simpl length; simpl (_ !! _); cbv beta iota;
  rewrite ?pass_arity.

Ltac resolve_slots :=
  repeat (rewrite bind_ret; rewrite resolve_slot by assumption).

(** ** Elementwise operations *)

(** C5: on an elementwise node with two inputs and one output that all
    resolve to valid backing tensors, ADD constructs and configures one
    addition unit with the node's convert policy, whatever the policy; MUL
    constructs and configures one multiplication unit with scale 1.0; SUB
    and any other operation code are rejected with a message, with no unit
    constructed. *)
Theorem eltwise_operations (log : bool) (node : INode) (s : State)
    (t1 t2 t_out : option Tensor) (a1 a2 a_out : addr) :
  inputs node = [t1; t2] ->
  outputs node = [t_out] ->
  resolves s t1 a1 -> resolves s t2 a2 -> resolves s t_out a_out ->
  (forall policy,
     create_eltwise_layer log node ADD policy s =
     let args := ArithmeticAdditionArgs (Some a1) (Some a2) (Some a_out) policy in
     Returned
       (Some {| function_class := GCArithmeticAddition; manager := None;
                configured := Some args |})
       {| tensors := tensors s;
          trace := trace s ++ [MakeUnique GCArithmeticAddition None;
                               Configure GCArithmeticAddition args] |})
  /\ (forall policy,
     create_eltwise_layer log node MUL policy s =
     let args := PixelWiseMultiplicationArgs (Some a1) (Some a2) (Some a_out) float_one in
     Returned
       (Some {| function_class := GCPixelWiseMultiplication; manager := None;
                configured := Some args |})
       {| tensors := tensors s;
          trace := trace s ++ [MakeUnique GCPixelWiseMultiplication None;
                               Configure GCPixelWiseMultiplication args] |})
  /\ (forall policy,
     create_eltwise_layer log node SUB policy s =
     Fatal (Error "Arithmetic subtraction is not supported in GLES backend") s)
  /\ (forall tag policy,
     create_eltwise_layer log node (OtherEltwiseOperation tag) policy s =
     Fatal (Error "Unsupported element-wise operation!") s).
Proof.
  intros Hin Hout (Hok1 & Hb1 & Hl1) (Hok2 & Hb2 & Hl2) (Hoko & Hbo & Hlo).
  repeat split; intros; unfold create_eltwise_layer; rewrite skip_verbose;
    open_node Hin Hout; resolve_slots;
    rewrite Hb1, Hb2, Hbo, !pass_null_check.
  - erewrite bind_returned by apply create_named_function_run.
    rewrite log_skip by valid_pointers. reflexivity.
  - erewrite bind_returned by apply create_named_function_run.
    rewrite log_skip by valid_pointers. reflexivity.
  - reflexivity.
  - reflexivity.
Qed.

Ltac sample_resolves :=
  split; [reflexivity | split; [reflexivity | eexists; vm_compute; reflexivity]].

Lemma eltwise_operations_witness :
  create_eltwise_layer true binary_node ADD SATURATE (sample_state F32) =
  Returned
    (Some {| function_class := GCArithmeticAddition; manager := None;
             configured := Some (ArithmeticAdditionArgs (Some 1%positive) (Some 2%positive)
                                   (Some 4%positive) SATURATE) |})
    {| tensors := tensors (sample_state F32);
       trace := [MakeUnique GCArithmeticAddition None;
                 Configure GCArithmeticAddition
                   (ArithmeticAdditionArgs (Some 1%positive) (Some 2%positive)
                      (Some 4%positive) SATURATE)] |}.
Proof.
  refine (proj1 (eltwise_operations true binary_node (sample_state F32)
                   (gc_tensor (Some 1%positive)) (gc_tensor (Some 2%positive))
                   (gc_tensor (Some 4%positive)) 1%positive 2%positive 4%positive
                   _ _ _ _ _) SATURATE);
    try reflexivity; sample_resolves.
Defined.

(** ** Depth concatenation *)

Lemma resolve_inputs_run node s :
  Forall slot_ok (inputs node) ->
  forall n k acc,
    k + n = length (inputs node) ->
    resolve_inputs node (seq k n) acc s
    = Returned (acc ++ map backing (drop k (inputs node))) s.
Proof.
  intros Hok n. induction n as [|n IH]; intros k acc Hlen; simpl.
  - rewrite drop_ge by lia. rewrite app_nil_r. reflexivity.
  - destruct (lookup_lt_is_Some_2 (inputs node) k) as [t Ht]; [lia|].
    unfold node_input. rewrite Ht, bind_ret.
    rewrite resolve_slot by (eapply Forall_lookup_1; eassumption).
    rewrite IH by lia.
    rewrite (drop_S _ _ _ Ht). simpl. rewrite <- app_assoc. reflexivity.
Qed.

Lemma resolves_all s ts addrs :
  Forall2 (resolves s) ts addrs ->
  Forall slot_ok ts /\ map backing ts = map Some addrs.
Proof.
  induction 1 as [|t a ts addrs (Hok & Hb & _) _ [IHok IHb]]; [split; [constructor|reflexivity]|].
  split; [constructor; assumption|]. simpl. rewrite Hb, IHb. reflexivity.
Qed.

(** C7: a depth-concatenation node with its one output that is switched
    off yields a null unit and leaves the state untouched, whatever its
    operand slots hold; switched on, with every input and the output
    resolving to a valid backing tensor, it yields one unit configured
    with the resolved inputs in slot order. *)
Theorem depth_concatenate (log : bool) (node : INode) (s : State) :
  (num_outputs node = 1 ->
   create_depth_concatenate_layer log node false s = Returned None s)
  /\ (forall t_out a_out addrs,
        Forall2 (resolves s) (inputs node) addrs ->
        outputs node = [t_out] ->
        resolves s t_out a_out ->
        create_depth_concatenate_layer log node true s =
        let args := DepthConcatenateArgs (map Some addrs) (Some a_out) in
        Returned
          (Some {| function_class := GCDepthConcatenateLayer; manager := None;
                   configured := Some args |})
          {| tensors := tensors s;
             trace := trace s ++ [MakeUnique GCDepthConcatenateLayer None;
                                  Configure GCDepthConcatenateLayer args] |}).
Proof.
  split.
  - intros Hout. unfold create_depth_concatenate_layer. rewrite skip_verbose.
    rewrite Hout, pass_arity. reflexivity.
  - intros t_out a_out addrs Hins Hout (Hoko & Hbo & Hlo).
    apply resolves_all in Hins as [Hok Hmap].
    unfold create_depth_concatenate_layer. rewrite skip_verbose.
    unfold num_outputs.
    rewrite Hout. simpl length. rewrite pass_arity. change (negb true) with false. cbv iota.
    erewrite bind_returned
      by (apply (resolve_inputs_run node s Hok (num_inputs node) 0 []); reflexivity).
    rewrite drop_0, app_nil_l, Hmap.
    unfold node_output. rewrite Hout. simpl (_ !! _). cbv iota.
    resolve_slots. rewrite Hbo, make_and_configure.
    rewrite log_skip by valid_pointers. reflexivity.
Qed.

Lemma depth_concatenate_witness :
  create_depth_concatenate_layer true foreign_node false (sample_state F32)
  = Returned None (sample_state F32)
  /\ create_depth_concatenate_layer true binary_node true (sample_state F32) =
     let args := DepthConcatenateArgs [Some 1%positive; Some 2%positive] (Some 4%positive) in
     Returned
       (Some {| function_class := GCDepthConcatenateLayer; manager := None;
                configured := Some args |})
       {| tensors := tensors (sample_state F32);
          trace := [MakeUnique GCDepthConcatenateLayer None;
                    Configure GCDepthConcatenateLayer args] |}.
Proof.
  split.
  - apply (proj1 (depth_concatenate true foreign_node (sample_state F32))). reflexivity.
  - apply (proj2 (depth_concatenate true binary_node (sample_state F32))
             (gc_tensor (Some 4%positive)) 4%positive [1%positive; 2%positive]).
    + constructor; [sample_resolves|].
      constructor; [sample_resolves|]. constructor.
    + reflexivity.
    + sample_resolves.
Defined.

(** ** Convolution and depthwise convolution *)

Lemma coercion_step {A} dt b ib (rest : M A) s :
  tensors s !! b = Some ib ->
  bind (if is_data_type_quantized_asymmetric dt
        then info_set_data_type (Some b) S32
        else ret tt) (fun _ => rest) s
  = rest (coerced s dt b ib).
Proof.
  intros Hb. unfold coerced, bind.
  destruct (is_data_type_quantized_asymmetric dt); [|reflexivity].
  unfold info_set_data_type, bind, info. rewrite Hb. reflexivity.
Qed.

Lemma coerced_live s dt b ib x :
  is_Some (tensors s !! x) -> is_Some (tensors (coerced s dt b ib) !! x).
Proof.
  unfold coerced. destruct (is_data_type_quantized_asymmetric dt); [|tauto].
  simpl. intros Hx. destruct (decide (b = x)) as [->|Hne].
  - rewrite lookup_insert_eq. eauto.
  - rewrite lookup_insert_ne by exact Hne. exact Hx.
Qed.

Lemma read_info {A} a i (rest : ITensorInfo -> M A) s :
  tensors s !! a = Some i -> bind (info (Some a)) rest s = rest i s.
Proof. intros Ha. unfold bind. rewrite (info_live _ _ _ Ha). reflexivity. Qed.

Lemma lookup_manager {A} ctx target (rest : option MemoryManager -> M A) s :
  bind (get_memory_manager ctx target) rest s
  = rest (memory_managers ctx target)
         {| tensors := tensors s; trace := trace s ++ [GetMemoryManager target] |}.
Proof. reflexivity. Qed.

Lemma constructions_app tr1 tr2 :
  constructions (tr1 ++ tr2) = constructions tr1 + constructions tr2.
Proof. unfold constructions. rewrite List.filter_app, length_app. reflexivity. Qed.

Lemma coercions_app b tr1 tr2 :
  coercions b (tr1 ++ tr2) = coercions b tr1 + coercions b tr2.
Proof. unfold coercions. rewrite List.filter_app, length_app. reflexivity. Qed.

Lemma new_events_app s tr tensors' :
  new_events s {| tensors := tensors'; trace := trace s ++ tr |} = tr.
Proof. unfold new_events. simpl. apply drop_app_length. Qed.

Lemma new_events_coerced s dt b ib :
  new_events s (coerced s dt b ib)
  = if is_data_type_quantized_asymmetric dt then [SetDataType b S32] else [].
Proof.
  unfold coerced. destruct (is_data_type_quantized_asymmetric dt).
  - apply new_events_app.
  - unfold new_events. apply drop_all.
Qed.

Ltac coerced_pointers :=
  repeat constructor; eexists;
  (split; [reflexivity | simpl; apply coerced_live; eauto]).

(** C8: on a convolution node with three inputs and one output that all
    resolve to valid backing tensors, the hint DIRECT constructs one
    direct-convolution unit through its default constructor, and every
    other hint constructs one general convolution unit whose constructor
    receives the memory manager the context holds for the GLES target; in
    both cases exactly one unit is constructed. *)
Theorem convolution_algorithm (log : bool) (node : INode) (conv_info : PadStrideInfo)
    (ctx : GraphContext) (s : State)
    (t_in t_w t_b t_out : option Tensor) (a w b o : addr) (ia ib : ITensorInfo) :
  inputs node = [t_in; t_w; t_b] ->
  outputs node = [t_out] ->
  resolves s t_in a -> resolves s t_w w -> resolves s t_b b -> resolves s t_out o ->
  tensors s !! a = Some ia ->
  tensors s !! b = Some ib ->
  let s1 := coerced s (data_type ia) b ib in
  let args := ConvolutionArgs (Some a) (Some w) (Some b) (Some o) conv_info in
  let mm := memory_managers ctx GC in
  (exists s',
     create_convolution_layer log node conv_info DIRECT ctx s =
     Returned (Some {| function_class := GCDirectConvolutionLayer; manager := None;
                       configured := Some args |}) s'
     /\ s' = {| tensors := tensors s1;
                trace := trace s1 ++ [GetMemoryManager GC;
                                      MakeUnique GCDirectConvolutionLayer None;
                                      Configure GCDirectConvolutionLayer args] |}
     /\ constructions (new_events s s') = 1)
  /\ (forall method, method <> DIRECT ->
      exists s',
        create_convolution_layer log node conv_info method ctx s =
        Returned (Some {| function_class := GCConvolutionLayer; manager := Some mm;
                          configured := Some args |}) s'
        /\ s' = {| tensors := tensors s1;
                   trace := trace s1 ++ [GetMemoryManager GC;
                                         MakeUnique GCConvolutionLayer (Some mm);
                                         Configure GCConvolutionLayer args] |}
        /\ constructions (new_events s s') = 1).
Proof.
  intros Hin Hout (Hoki & Hbi & Hli) (Hokw & Hbw & Hlw) (Hokb & Hbb & Hlb)
         (Hoko & Hbo & Hlo) Ha Hb s1 args mm.
  assert (Hcount : forall cls m,
            constructions
              (new_events s {| tensors := tensors s1;
                               trace := trace s1 ++ [GetMemoryManager GC; MakeUnique cls m;
                                                     Configure cls args] |}) = 1).
  { intros cls m. unfold new_events. simpl.
    assert (Hs1 : exists tr, trace s1 = trace s ++ tr /\ constructions tr = 0).
    { subst s1. unfold coerced.
      destruct (is_data_type_quantized_asymmetric (data_type ia)); simpl.
      - eexists. split; [reflexivity|reflexivity].
      - exists []. rewrite app_nil_r. split; reflexivity. }
    destruct Hs1 as (tr & -> & Htr).
    rewrite <- app_assoc, drop_app_length, constructions_app, Htr. reflexivity. }
  split; [|intros method Hmethod]; eexists; (split; [|split; [reflexivity|apply Hcount]]);
    unfold create_convolution_layer; rewrite skip_verbose;
    open_node Hin Hout; resolve_slots;
    rewrite Hbi, Hbw, Hbb, Hbo;
    rewrite (read_info _ _ _ _ Ha);
    rewrite (coercion_step _ _ _ _ _ Hb); fold s1;
    rewrite lookup_manager.
  - erewrite bind_returned by apply create_named_function_run.
    rewrite log_skip by coerced_pointers.
    simpl. rewrite <- app_assoc. reflexivity.
  - destruct method as [|tag]; [congruence|].
    erewrite bind_returned by apply create_named_memory_managed_function_run.
    rewrite log_skip by coerced_pointers.
    simpl. rewrite <- app_assoc. reflexivity.
Qed.

Lemma convolution_algorithm_witness :
  exists s',
    create_convolution_layer true ternary_node sample_conv_info DIRECT sample_ctx
      (sample_state QASYMM8)
    = Returned
        (Some {| function_class := GCDirectConvolutionLayer; manager := None;
                 configured := Some (ConvolutionArgs (Some 1%positive) (Some 2%positive)
                                       (Some 3%positive) (Some 4%positive)
                                       sample_conv_info) |}) s'
    /\ constructions (new_events (sample_state QASYMM8) s') = 1.
Proof.
  destruct (convolution_algorithm true ternary_node sample_conv_info sample_ctx
              (sample_state QASYMM8)
              (gc_tensor (Some 1%positive)) (gc_tensor (Some 2%positive))
              (gc_tensor (Some 3%positive)) (gc_tensor (Some 4%positive))
              1%positive 2%positive 3%positive 4%positive
              (sample_info QASYMM8) (sample_info S8))
    as ((s' & Hrun & _ & Hone) & _).
  - reflexivity.
  - reflexivity.
  - sample_resolves.
  - sample_resolves.
  - sample_resolves.
  - sample_resolves.
  - reflexivity.
  - reflexivity.
  - exists s'. split; [exact Hrun | exact Hone].
Defined.

(** C6: on a depthwise-convolution node with three inputs and one output
    that all resolve to valid backing tensors, the method OPTIMIZED_3x3
    constructs and configures one 3x3 unit, and any other method is
    rejected with a message before any unit is constructed; so a unit is
    returned exactly for OPTIMIZED_3x3. *)
Theorem depthwise_method (log : bool) (node : INode) (conv_info : PadStrideInfo)
    (method : DepthwiseConvolutionMethod) (s : State)
    (t_in t_w t_b t_out : option Tensor) (a w b o : addr) (ia ib : ITensorInfo) :
  inputs node = [t_in; t_w; t_b] ->
  outputs node = [t_out] ->
  resolves s t_in a -> resolves s t_w w -> resolves s t_b b -> resolves s t_out o ->
  tensors s !! a = Some ia ->
  tensors s !! b = Some ib ->
  let s1 := coerced s (data_type ia) b ib in
  let args := ConvolutionArgs (Some a) (Some w) (Some b) (Some o) conv_info in
  let r := create_depthwise_convolution_layer log node conv_info method s in
  (method = OPTIMIZED_3x3 ->
   r = Returned (Some {| function_class := GCDepthwiseConvolutionLayer3x3; manager := None;
                         configured := Some args |})
                {| tensors := tensors s1;
                   trace := trace s1 ++ [MakeUnique GCDepthwiseConvolutionLayer3x3 None;
                                         Configure GCDepthwiseConvolutionLayer3x3 args] |})
  /\ (method <> OPTIMIZED_3x3 ->
      r = Fatal (Error "Generic DepthwiseConvolutionLayer is not supported in GLES backend") s1
      /\ constructions (new_events s s1) = 0)
  /\ ((exists u s', r = Returned (Some u) s') <-> method = OPTIMIZED_3x3).
Proof.
  intros Hin Hout (Hoki & Hbi & Hli) (Hokw & Hbw & Hlw) (Hokb & Hbb & Hlb)
         (Hoko & Hbo & Hlo) Ha Hb s1 args r.
  assert (Hr : r = match method with
                   | OPTIMIZED_3x3 =>
                       Returned (Some {| function_class := GCDepthwiseConvolutionLayer3x3;
                                         manager := None; configured := Some args |})
                         {| tensors := tensors s1;
                            trace := trace s1 ++
                                     [MakeUnique GCDepthwiseConvolutionLayer3x3 None;
                                      Configure GCDepthwiseConvolutionLayer3x3 args] |}
                   | _ =>
                       Fatal (Error "Generic DepthwiseConvolutionLayer is not supported in GLES backend")
                             s1
                   end).
  { subst r. unfold create_depthwise_convolution_layer. rewrite skip_verbose.
    open_node Hin Hout. resolve_slots.
    rewrite Hbi, Hbw, Hbb, Hbo.
    rewrite (read_info _ _ _ _ Ha).
    rewrite (coercion_step _ _ _ _ _ Hb). fold s1.
    destruct method as [|tag]; [|reflexivity].
    erewrite bind_returned by apply create_named_function_run.
    rewrite log_skip by coerced_pointers. reflexivity. }
  rewrite Hr. split; [intros ->; reflexivity|]. split.
  - intros Hm. destruct method as [|tag]; [congruence|]. split; [reflexivity|].
    subst s1. rewrite new_events_coerced.
    destruct (is_data_type_quantized_asymmetric (data_type ia)); reflexivity.
  - destruct method as [|tag]; split; try reflexivity; try discriminate.
    + intros _. eauto.
    + intros (u & s' & Hu). discriminate.
Qed.

Lemma depthwise_method_witness :
  exists s1,
    create_depthwise_convolution_layer true ternary_node sample_conv_info
      (OtherDepthwiseConvolutionMethod 1) (sample_state F32)
    = Fatal (Error "Generic DepthwiseConvolutionLayer is not supported in GLES backend") s1.
Proof.
  destruct (depthwise_method true ternary_node sample_conv_info
              (OtherDepthwiseConvolutionMethod 1) (sample_state F32)
              (gc_tensor (Some 1%positive)) (gc_tensor (Some 2%positive))
              (gc_tensor (Some 3%positive)) (gc_tensor (Some 4%positive))
              1%positive 2%positive 3%positive 4%positive
              (sample_info F32) (sample_info S8))
    as (_ & Hother & _).
  - reflexivity.
  - reflexivity.
  - sample_resolves.
  - sample_resolves.
  - sample_resolves.
  - sample_resolves.
  - reflexivity.
  - reflexivity.
  - eexists. apply Hother. discriminate.
Defined.

(** ** Bias coercion *)

(** Evaluating the streamed expression of a log call never changes the
    state, also when it runs into a null pointer. *)
Lemma log_final_state {A} log ptrs (x : A) s :
  final_state (bind (ARM_COMPUTE_LOG_GRAPH_INFO log ptrs) (fun _ => ret x) s) = s.
Proof.
  unfold ARM_COMPUTE_LOG_GRAPH_INFO. destruct log; [|reflexivity].
  assert (H : forall o : Outcome unit, final_state o = s ->
              final_state (match o with
                           | Returned a s' => ret x s'
                           | Fatal e s' => Fatal e s'
                           | Undefined u s' => Undefined u s'
                           end) = s).
  { intros [a s'|e s'|u s']; simpl; tauto. }
  unfold bind at 1. apply H. clear H.
  induction ptrs as [|p ptrs IH]; [reflexivity|].
  simpl. unfold bind at 1, info.
  destruct p as [a|]; [|reflexivity].
  destruct (tensors s !! a); [exact IH|reflexivity].
Qed.

Lemma coerced_bias s dt b ib :
  tensors s !! b = Some ib ->
  data_type <$> tensors (coerced s dt b ib) !! b
  = Some (if is_data_type_quantized_asymmetric dt then S32 else data_type ib).
Proof.
  intros Hb. unfold coerced. destruct (is_data_type_quantized_asymmetric dt); simpl.
  - rewrite lookup_insert_eq. reflexivity.
  - rewrite Hb. reflexivity.
Qed.

Lemma after_coercion s dt b ib tr s' :
  tensors s !! b = Some ib ->
  tensors s' = tensors (coerced s dt b ib) ->
  trace s' = trace (coerced s dt b ib) ++ tr ->
  coercions b tr = 0 ->
  if is_data_type_quantized_asymmetric dt
  then data_type <$> tensors s' !! b = Some S32
       /\ coercions b (new_events s s') = 1
  else tensors s' = tensors s
       /\ data_type <$> tensors s' !! b = Some (data_type ib)
       /\ coercions b (new_events s s') = 0.
Proof.
  intros Hb Htensors Htrace Htr.
  pose proof (coerced_bias s dt b ib Hb) as Hdt.
  pose proof (new_events_coerced s dt b ib) as Hnew.
  assert (Hev : new_events s s' = new_events s (coerced s dt b ib) ++ tr).
  { unfold new_events. rewrite Htrace. apply drop_app_le.
    unfold coerced. destruct (is_data_type_quantized_asymmetric dt); simpl;
      rewrite ?length_app; lia. }
  rewrite Hev, Hnew, coercions_app, Htr, Htensors, Hdt.
  unfold coerced. destruct (is_data_type_quantized_asymmetric dt).
  - split; [reflexivity|]. unfold coercions. simpl.
    rewrite bool_decide_eq_true_2 by reflexivity. reflexivity.
  - repeat split; reflexivity.
Qed.

(** C4: on a convolution or depthwise-convolution node whose slots pass the
    target assertion and whose primary input and bias resolve to valid
    backing tensors, the state the lowering leaves behind (also when the
    depthwise method is rejected afterwards) has the bias descriptor at S32
    after exactly one [set_data_type] on it when the input datatype is
    quantized asymmetric; otherwise no descriptor was changed and the bias
    keeps its datatype. *)
Theorem quantized_bias_coercion (log : bool) (node : INode) (conv_info : PadStrideInfo)
    (cmethod : ConvolutionMethod) (dmethod : DepthwiseConvolutionMethod)
    (ctx : GraphContext) (s : State)
    (t_in t_w t_b t_out : option Tensor) (a b : addr) (ia ib : ITensorInfo) :
  inputs node = [t_in; t_w; t_b] ->
  outputs node = [t_out] ->
  slot_ok t_in -> slot_ok t_w -> slot_ok t_b -> slot_ok t_out ->
  backing t_in = Some a -> tensors s !! a = Some ia ->
  backing t_b = Some b -> tensors s !! b = Some ib ->
  forall s',
    s' = final_state (create_convolution_layer log node conv_info cmethod ctx s)
    \/ s' = final_state (create_depthwise_convolution_layer log node conv_info dmethod s) ->
    if is_data_type_quantized_asymmetric (data_type ia)
    then data_type <$> tensors s' !! b = Some S32
         /\ coercions b (new_events s s') = 1
    else tensors s' = tensors s
         /\ data_type <$> tensors s' !! b = Some (data_type ib)
         /\ coercions b (new_events s s') = 0.
Proof.
  intros Hin Hout Hoki Hokw Hokb Hoko Hbi Ha Hbb Hb s' Hs'.
  set (s1 := coerced s (data_type ia) b ib).
  assert (Hfinal : exists tr, s' = {| tensors := tensors s1; trace := trace s1 ++ tr |}
                              /\ coercions b tr = 0).
  { destruct Hs' as [-> | ->].
    - unfold create_convolution_layer. rewrite skip_verbose.
      open_node Hin Hout. resolve_slots.
      rewrite Hbi, Hbb.
      rewrite (read_info _ _ _ _ Ha).
      rewrite (coercion_step _ _ _ _ _ Hb). fold s1.
      rewrite lookup_manager.
      destruct cmethod as [|tag];
        [ erewrite bind_returned by apply create_named_function_run
        | erewrite bind_returned by apply create_named_memory_managed_function_run ];
        rewrite log_final_state; simpl; rewrite <- app_assoc;
        eexists; (split; [reflexivity|reflexivity]).
    - unfold create_depthwise_convolution_layer. rewrite skip_verbose.
      open_node Hin Hout. resolve_slots.
      rewrite Hbi, Hbb.
      rewrite (read_info _ _ _ _ Ha).
      rewrite (coercion_step _ _ _ _ _ Hb). fold s1.
      destruct dmethod as [|tag].
      + erewrite bind_returned by apply create_named_function_run.
        rewrite log_final_state. simpl.
        eexists; (split; [reflexivity|reflexivity]).
      + exists []. simpl. rewrite app_nil_r. destruct s1; split; reflexivity. }
  destruct Hfinal as (tr & -> & Htr).
  eapply after_coercion; [exact Hb|reflexivity|reflexivity|exact Htr].
Qed.

Lemma quantized_bias_coercion_witness :
  let s' := final_state (create_convolution_layer false ternary_node sample_conv_info
                           (OtherConvolutionMethod 0) sample_ctx (sample_state QASYMM8)) in
  data_type <$> tensors (sample_state QASYMM8) !! 3%positive = Some S8
  /\ data_type <$> tensors s' !! 3%positive = Some S32
  /\ coercions 3%positive (new_events (sample_state QASYMM8) s') = 1.
Proof.
  split; [reflexivity|].
  apply (quantized_bias_coercion false ternary_node sample_conv_info
           (OtherConvolutionMethod 0) OPTIMIZED_3x3 sample_ctx (sample_state QASYMM8)
           (gc_tensor (Some 1%positive)) (gc_tensor (Some 2%positive))
           (gc_tensor (Some 3%positive)) (gc_tensor (Some 4%positive))
           1%positive 3%positive (sample_info QASYMM8) (sample_info S8));
    try reflexivity.
  left. reflexivity.
Defined.

(** ** Fully connected layer *)

Lemma log_not_fatal {A} log ptrs (x : A) s :
  is_fatal (bind (ARM_COMPUTE_LOG_GRAPH_INFO log ptrs) (fun _ => ret x) s) = false.
Proof.
  unfold ARM_COMPUTE_LOG_GRAPH_INFO. destruct log; [|reflexivity].
  assert (H : forall o : Outcome unit, is_fatal o = false ->
              is_fatal (match o with
                        | Returned a s' => ret x s'
                        | Fatal e s' => Fatal e s'
                        | Undefined u s' => Undefined u s'
                        end) = false).
  { intros [a s'|e s'|u s']; simpl; tauto. }
  unfold bind at 1. apply H. clear H.
  induction ptrs as [|p ptrs IH]; [reflexivity|].
  simpl. unfold bind at 1, info.
  destruct p as [a|]; [|reflexivity].
  destruct (tensors s !! a); [exact IH|reflexivity].
Qed.

Lemma null_check {A} (p : option addr) cond (rest : M A) s :
  bind (ARM_COMPUTE_ERROR_ON (bool_decide (p = None)) cond) (fun _ => rest) s
  = match p with
    | Some _ => rest s
    | None => Fatal (AssertionFailed cond) s
    end.
Proof. destruct p; [apply pass_null_check | apply fail_null_check]. Qed.

(** What the fully connected lowerer does on a node of the right arity
    whose slots pass the target assertion: lookup, construction and
    configuration first, the null checks after them. *)
Lemma fully_connected_run (log : bool) (node : INode) (ctx : GraphContext) (s : State)
    (t_in t_w t_b t_out : option Tensor) :
  inputs node = [t_in; t_w; t_b] ->
  outputs node = [t_out] ->
  slot_ok t_in -> slot_ok t_w -> slot_ok t_b -> slot_ok t_out ->
  let args := FullyConnectedArgs (backing t_in) (backing t_w) (backing t_b) (backing t_out) in
  let mm := memory_managers ctx GC in
  let configured_state :=
    {| tensors := tensors s;
       trace := trace s ++ [GetMemoryManager GC;
                            MakeUnique GCFullyConnectedLayer (Some mm);
                            Configure GCFullyConnectedLayer args] |} in
  create_fully_connected_layer log node ctx s =
  match backing t_in, backing t_w, backing t_out with
  | Some _, Some _, Some _ =>
      bind (ARM_COMPUTE_LOG_GRAPH_INFO log
              [backing t_in; backing t_in; backing t_w; backing t_b; backing t_out])
           (fun _ => ret (Some {| function_class := GCFullyConnectedLayer;
                                  manager := Some mm; configured := Some args |}))
           configured_state
  | None, _, _ => Fatal (AssertionFailed "input == nullptr") configured_state
  | Some _, None, _ => Fatal (AssertionFailed "weights == nullptr") configured_state
  | Some _, Some _, None => Fatal (AssertionFailed "output == nullptr") configured_state
  end.
Proof.
  intros Hin Hout Hoki Hokw Hokb Hoko args mm configured_state.
  unfold create_fully_connected_layer. rewrite skip_verbose.
  open_node Hin Hout. resolve_slots.
  rewrite lookup_manager, make_and_configure. simpl. rewrite <- app_assoc. simpl.
  fold mm. fold args. fold configured_state.
  rewrite !null_check.
  destruct (backing t_in), (backing t_w), (backing t_out); reflexivity.
Qed.

(** C10: on a fully connected node with three inputs and one output whose
    slots pass the target assertion, the unit is constructed and configured
    with the resolved pointers, null or not, before any null check is made:
    whatever the outcome, the state left behind records the lookup, the
    construction and the configuration.  A null input, weights or output
    then aborts on its assertion; with those three present the lowering is
    never fatal, whether the bias is null or not, and without logging it
    returns the unit. *)
Theorem fully_connected_checks_after_configure (log : bool) (node : INode)
    (ctx : GraphContext) (s : State) (t_in t_w t_b t_out : option Tensor) :
  inputs node = [t_in; t_w; t_b] ->
  outputs node = [t_out] ->
  slot_ok t_in -> slot_ok t_w -> slot_ok t_b -> slot_ok t_out ->
  let args := FullyConnectedArgs (backing t_in) (backing t_w) (backing t_b) (backing t_out) in
  let mm := memory_managers ctx GC in
  let configured_state :=
    {| tensors := tensors s;
       trace := trace s ++ [GetMemoryManager GC;
                            MakeUnique GCFullyConnectedLayer (Some mm);
                            Configure GCFullyConnectedLayer args] |} in
  let r := create_fully_connected_layer log node ctx s in
  final_state r = configured_state
  /\ (backing t_in = None \/ backing t_w = None \/ backing t_out = None ->
      exists cond, r = Fatal (AssertionFailed cond) configured_state)
  /\ (backing t_in <> None -> backing t_w <> None -> backing t_out <> None ->
      is_fatal r = false
      /\ (log = false ->
          r = Returned (Some {| function_class := GCFullyConnectedLayer;
                                manager := Some mm; configured := Some args |})
                       configured_state)).
Proof.
  intros Hin Hout Hoki Hokw Hokb Hoko args mm configured_state r.
  assert (Hr : r = _)
    by exact (fully_connected_run log node ctx s t_in t_w t_b t_out
                Hin Hout Hoki Hokw Hokb Hoko).
  cbv zeta in Hr. fold mm args configured_state in Hr.
  rewrite Hr. clear Hr. split; [|split].
  - destruct (backing t_in), (backing t_w), (backing t_out);
      try reflexivity. apply log_final_state.
  - intros Hnull.
    destruct (backing t_in), (backing t_w), (backing t_out); eauto;
      destruct Hnull as [H|[H|H]]; discriminate.
  - intros Hi Hw Ho.
    destruct (backing t_in), (backing t_w), (backing t_out); try congruence.
    split; [apply log_not_fatal|]. intros ->. reflexivity.
Qed.

Lemma fully_connected_checks_after_configure_witness :
  let r := create_fully_connected_layer true
             (sample_node [gc_tensor (Some 1%positive); gc_tensor None; gc_tensor (Some 3%positive)]
                          [gc_tensor (Some 4%positive)])
             sample_ctx (sample_state F32) in
  (exists cond, r = Fatal (AssertionFailed cond) (final_state r))
  /\ trace (final_state r)
     = [GetMemoryManager GC;
        MakeUnique GCFullyConnectedLayer (Some (Some 11%N));
        Configure GCFullyConnectedLayer
          (FullyConnectedArgs (Some 1%positive) None (Some 3%positive) (Some 4%positive))].
Proof.
  destruct (fully_connected_checks_after_configure true
              (sample_node [gc_tensor (Some 1%positive); gc_tensor None;
                            gc_tensor (Some 3%positive)]
                           [gc_tensor (Some 4%positive)])
              sample_ctx (sample_state F32)
              (gc_tensor (Some 1%positive)) (gc_tensor None) (gc_tensor (Some 3%positive))
              (gc_tensor (Some 4%positive)))
    as (Hfinal & Hnull & _); try reflexivity.
  split.
  - rewrite Hfinal. apply Hnull. right. left. reflexivity.
  - rewrite Hfinal. reflexivity.
Defined.

(** ** Softmax *)

Lemma get_backing_tensor_cases t s :
  (slot_ok t /\ get_backing_tensor t s = Returned (backing t) s)
  \/ (exists cond, get_backing_tensor t s = Fatal (AssertionFailed cond) s).
Proof.
  destruct t as [t|]; [|left; split; [exact I|reflexivity]].
  destruct (decide (desc_target t = GC)) as [Heq|Hne].
  - left. split; [exact Heq|]. apply (get_backing_tensor_ok (Some t)). exact Heq.
  - right. apply get_backing_tensor_mismatch. exact Hne.
Qed.

Lemma singleton_list {A} (l : list A) : length l = 1 -> exists x, l = [x].
Proof. destruct l as [|x [|y l]]; try discriminate. eauto. Qed.

(** Every run of the softmax lowerer either aborts on one of its
    assertions with the state untouched, or goes on to look the memory
    manager up under the OpenCL tag and to construct and configure the
    unit with it. *)
Lemma softmax_runs (log : bool) (node : INode) (beta : float) (ctx : GraphContext)
    (s : State) :
  let r := create_softmax_layer log node beta ctx s in
  let mm := memory_managers ctx CL in
  (exists cond, r = Fatal (AssertionFailed cond) s)
  \/ (exists args,
        is_fatal r = false
        /\ final_state r =
           {| tensors := tensors s;
              trace := trace s ++ [GetMemoryManager CL;
                                   MakeUnique GCSoftmaxLayer (Some mm);
                                   Configure GCSoftmaxLayer args] |}).
Proof.
  intros r mm. subst r. unfold create_softmax_layer. rewrite skip_verbose.
  destruct (decide (num_inputs node = 1)) as [Hi|Hi];
    [rewrite Hi, pass_arity | left; eexists; apply error_on_arity; exact Hi].
  destruct (decide (num_outputs node = 1)) as [Ho|Ho];
    [rewrite Ho, pass_arity | left; eexists; apply error_on_arity; exact Ho].
  apply singleton_list in Hi as [t_in Hin]. apply singleton_list in Ho as [t_out Hout].
  open_node Hin Hout. rewrite bind_ret.
  destruct (get_backing_tensor_cases t_in s) as [[Hoki Hri]|[c Hc]];
    [|left; exists c; apply bind_fatal; exact Hc].
  rewrite resolve_slot by exact Hoki. rewrite bind_ret.
  destruct (get_backing_tensor_cases t_out s) as [[Hoko Hro]|[c Hc]];
    [|left; exists c; apply bind_fatal; exact Hc].
  rewrite resolve_slot by exact Hoko.
  rewrite !null_check.
  destruct (backing t_in) as [a|]; [|left; eauto].
  destruct (backing t_out) as [o|]; [|left; eauto].
  right. rewrite lookup_manager, make_and_configure. simpl trace. rewrite <- app_assoc.
  eexists. split; [apply log_not_fatal|]. rewrite log_final_state. reflexivity.
Qed.

(** C9: the softmax lowerer asks the context for the memory manager of the
    OpenCL target, which is not the GLES target it serves.  On a node with
    one input and one output resolving to valid backing tensors it returns
    the unit constructed with that manager; and every run that gets past
    the assertions makes this lookup, and no lookup under the GLES tag. *)
Theorem softmax_memory_manager (log : bool) (node : INode) (beta : float)
    (ctx : GraphContext) (s : State) :
  let r := create_softmax_layer log node beta ctx s in
  let mm := memory_managers ctx CL in
  CL <> GC
  /\ (forall t_in t_out a o,
        inputs node = [t_in] -> outputs node = [t_out] ->
        resolves s t_in a -> resolves s t_out o ->
        let args := SoftmaxArgs (Some a) (Some o) beta in
        r = Returned (Some {| function_class := GCSoftmaxLayer; manager := Some mm;
                              configured := Some args |})
                     {| tensors := tensors s;
                        trace := trace s ++ [GetMemoryManager CL;
                                             MakeUnique GCSoftmaxLayer (Some mm);
                                             Configure GCSoftmaxLayer args] |})
  /\ (is_fatal r = false ->
      GetMemoryManager CL ∈ new_events s (final_state r)
      /\ GetMemoryManager GC ∉ new_events s (final_state r)).
Proof.
  intros r mm. split; [discriminate|]. split.
  - intros t_in t_out a o Hin Hout (Hoki & Hbi & Hli) (Hoko & Hbo & Hlo) args.
    subst r. unfold create_softmax_layer. rewrite skip_verbose.
 open_node Hin Hout. resolve_slots.
    rewrite Hbi, Hbo, !pass_null_check.
    rewrite lookup_manager, make_and_configure.
    rewrite log_skip by valid_pointers.
    simpl. rewrite <- app_assoc. reflexivity.
  - intros Hnf. destruct (softmax_runs log node beta ctx s) as [(c & Hc)|(args & _ & Hfinal)].
    + fold r in Hc. rewrite Hc in Hnf. discriminate.
    + fold r in Hfinal. rewrite Hfinal, new_events_app. split.
      * apply list_elem_of_here.
      * intros Hin. repeat (apply elem_of_cons in Hin as [Hin|Hin]; [discriminate|]).
        inversion Hin.
Qed.

Lemma softmax_memory_manager_witness :
  create_softmax_layer true unary_node float_one sample_ctx (sample_state F32) =
  let args := SoftmaxArgs (Some 1%positive) (Some 4%positive) float_one in
  Returned (Some {| function_class := GCSoftmaxLayer; manager := Some (Some 22%N);
                    configured := Some args |})
           {| tensors := tensors (sample_state F32);
              trace := [GetMemoryManager CL;
                        MakeUnique GCSoftmaxLayer (Some (Some 22%N));
                        Configure GCSoftmaxLayer args] |}.
Proof.
  destruct (softmax_memory_manager true unary_node float_one sample_ctx (sample_state F32))
    as (_ & Hrun & _).
  apply (Hrun (gc_tensor (Some 1%positive)) (gc_tensor (Some 4%positive))
              1%positive 4%positive).
  - reflexivity.
  - reflexivity.
  - sample_resolves.
  - sample_resolves.
Defined.

(** ** Null operands *)

(** Shape of the lowerers that check their operands before constructing:
    with a null pointer among the checked operands the checks abort. *)
Lemma null_checks_abort {A} (i o : option addr) ci co (rest : M A) s :
  i = None \/ o = None ->
  exists cond,
    bind (ARM_COMPUTE_ERROR_ON (bool_decide (i = None)) ci)
         (fun _ => bind (ARM_COMPUTE_ERROR_ON (bool_decide (o = None)) co)
                        (fun _ => rest)) s
    = Fatal (AssertionFailed cond) s.
Proof.
  intros Hnull. rewrite null_check. destruct i as [a|]; [|eauto].
  rewrite null_check. destruct o as [b|]; [|eauto].
  destruct Hnull; discriminate.
Qed.

(** The lowerers that do assert their operands: the elementwise,
    normalization, pooling and softmax lowerers abort on an assertion when
    any operand, input or output, resolves to a null backing tensor, and
    they do so before anything is constructed or configured (the state is
    untouched); the fully connected lowerer is fatal on a null input,
    weights or output, and a null bias alone never makes it fatal. *)
Theorem null_operand_fatal_where_checked (log : bool) (node : INode)
    (ctx : GraphContext) (s : State) :
  (forall t1 t2 t_out,
     inputs node = [t1; t2] -> outputs node = [t_out] ->
     slot_ok t1 -> slot_ok t2 -> slot_ok t_out ->
     backing t1 = None \/ backing t2 = None \/ backing t_out = None ->
     forall op policy, exists cond,
       create_eltwise_layer log node op policy s = Fatal (AssertionFailed cond) s)
  /\ (forall t_in t_out,
     inputs node = [t_in] -> outputs node = [t_out] ->
     slot_ok t_in -> slot_ok t_out ->
     backing t_in = None \/ backing t_out = None ->
     (forall norm_info, exists cond,
        create_normalization_layer log node norm_info s = Fatal (AssertionFailed cond) s)
     /\ (forall pool_info, exists cond,
        create_pooling_layer log node pool_info s = Fatal (AssertionFailed cond) s)
     /\ (forall beta, exists cond,
        create_softmax_layer log node beta ctx s = Fatal (AssertionFailed cond) s))
  /\ (forall t_in t_w t_b t_out,
     inputs node = [t_in; t_w; t_b] -> outputs node = [t_out] ->
     slot_ok t_in -> slot_ok t_w -> slot_ok t_b -> slot_ok t_out ->
     (backing t_in = None \/ backing t_w = None \/ backing t_out = None ->
      is_fatal (create_fully_connected_layer log node ctx s) = true)
     /\ (backing t_in <> None -> backing t_w <> None -> backing t_out <> None ->
         is_fatal (create_fully_connected_layer log node ctx s) = false)).
Proof.
  split; [|split].
  - intros t1 t2 t_out Hin Hout Hok1 Hok2 Hoko Hnull op policy.
    unfold create_eltwise_layer. rewrite skip_verbose.
    open_node Hin Hout. resolve_slots.
    rewrite null_check. destruct (backing t1) as [a1|]; [|eauto].
    apply null_checks_abort. destruct Hnull as [H|H]; [discriminate|exact H].
  - intros t_in t_out Hin Hout Hoki Hoko Hnull. repeat split; intros.
    + unfold create_normalization_layer. rewrite skip_verbose.
      open_node Hin Hout. resolve_slots.
      apply null_checks_abort, Hnull.
    + unfold create_pooling_layer. rewrite skip_verbose.
      open_node Hin Hout. resolve_slots.
      apply null_checks_abort, Hnull.
    + unfold create_softmax_layer. rewrite skip_verbose.
      open_node Hin Hout. resolve_slots.
      apply null_checks_abort, Hnull.
  - intros t_in t_w t_b t_out Hin Hout Hoki Hokw Hokb Hoko.
    rewrite (fully_connected_run log node ctx s t_in t_w t_b t_out
               Hin Hout Hoki Hokw Hokb Hoko).
    split.
    + intros Hnull.
      destruct (backing t_in), (backing t_w), (backing t_out); try reflexivity.
      destruct Hnull as [H|[H|H]]; discriminate.
    + intros Hi Hw Ho.
      destruct (backing t_in), (backing t_w), (backing t_out); try congruence.
      apply log_not_fatal.
Qed.

Lemma null_operand_fatal_where_checked_witness :
  exists cond,
    create_pooling_layer true unbacked_input_node
      {| pool_type := MAX; pool_size := 2; pool_pad_stride := sample_conv_info |}
      (sample_state F32)
    = Fatal (AssertionFailed cond) (sample_state F32).
Proof.
  destruct (null_operand_fatal_where_checked true unbacked_input_node sample_ctx
              (sample_state F32)) as (_ & Hunary & _).
  destruct (Hunary (gc_tensor None) (gc_tensor (Some 4%positive)))
    as (_ & Hpool & _); try reflexivity.
  - left. reflexivity.
  - apply Hpool.
Defined.

(** C3: a null operand is meant to abort the lowering before kernel
    configuration, and the code misses that here: the activation lowerer
    hands a null input on to [configure] and returns the unit (with logging
    it runs into the null pointer only afterwards, in the log statement),
    and the fully connected lowerer configures and returns a unit with a
    null bias. *)
Lemma null_operand_reaches_configuration :
  let node := unbacked_input_node in
  let args := ActivationArgs None (Some 4%positive) sample_relu in
  let configured_state :=
    {| tensors := tensors (sample_state F32);
       trace := [MakeUnique GCActivationLayer None; Configure GCActivationLayer args] |} in
  backing (gc_tensor None) = None
  /\ create_activation_layer false node sample_relu (sample_state F32)
     = Returned (Some {| function_class := GCActivationLayer; manager := None;
                         configured := Some args |}) configured_state
  /\ create_activation_layer true node sample_relu (sample_state F32)
     = Undefined NullDereference configured_state
  /\ configured_with_null (trace configured_state) = true
  /\ (let r := create_fully_connected_layer false unbacked_bias_node sample_ctx
                 (sample_state F32) in
      is_fatal r = false
      /\ configured_with_null (trace (final_state r)) = true
      /\ exists u s', r = Returned (Some u) s').
Proof.
  repeat split; try reflexivity.
  vm_compute. eauto.
Qed.

(** * Further properties of the factory *)

(** ** The tensor resolver *)

(** [get_backing_tensor] aborts exactly on a tensor declared for another
    target, also when that tensor has no handle; otherwise it returns the
    handle, null for a missing tensor or a missing handle.  It never
    touches the state. *)
Theorem get_backing_tensor_spec (t : option Tensor) (s : State) :
  final_state (get_backing_tensor t s) = s
  /\ (is_fatal (get_backing_tensor t s) = true
      <-> exists t', t = Some t' /\ desc_target t' <> GC)
  /\ (is_fatal (get_backing_tensor t s) = false ->
      get_backing_tensor t s = Returned (backing t) s)
  /\ (get_backing_tensor t s = Returned None s
      <-> t = None \/ exists t', t = Some t' /\ desc_target t' = GC /\ handle t' = None).
Proof.
  destruct t as [[tg h]|].
  - destruct (decide (tg = GC)) as [->|Hne].
    + rewrite (get_backing_tensor_ok (Some {| desc_target := GC; handle := h |}) s eq_refl).
      simpl. repeat split; try reflexivity.
      * discriminate.
      * intros (t' & Ht' & Hne). injection Ht' as <-. simpl in Hne. congruence.
      * intros Hr. right. eexists. split; [reflexivity|]. simpl.
        split; [reflexivity|]. congruence.
      * intros [Hn|(t' & Ht' & _ & Hh)]; [discriminate|].
        injection Ht' as <-. simpl in Hh. subst h. reflexivity.
    + destruct (get_backing_tensor_mismatch {| desc_target := tg; handle := h |} s Hne)
        as [cond Hf].
      rewrite Hf. simpl. repeat split; try discriminate.
      * intros _. eexists. split; [reflexivity|exact Hne].
      * intros [Hn|(t' & Ht' & Hgc & _)]; [discriminate|].
        injection Ht' as <-. simpl in Hgc. contradiction.
  - repeat split; try reflexivity; try discriminate.
    + intros (t' & Ht' & _). discriminate.
    + intros _. left. reflexivity.
Qed.

(** ** Descriptors the lowerers leave alone *)

Lemma keeps_ret {A} (a : A) : keeps_tensors (ret a).
Proof. intros s. reflexivity. Qed.

Lemma keeps_bind {A B} (m : M A) (f : A -> M B) :
  keeps_tensors m -> (forall a, keeps_tensors (f a)) -> keeps_tensors (bind m f).
Proof.
  intros Hm Hf s. unfold bind. specialize (Hm s).
  destruct (m s) as [a s'|e s'|u s']; simpl in *; [|exact Hm|exact Hm].
  rewrite Hf. exact Hm.
Qed.

Lemma keeps_emit e : keeps_tensors (emit e).
Proof. intros s. reflexivity. Qed.

Lemma keeps_error_on b cond : keeps_tensors (ARM_COMPUTE_ERROR_ON b cond).
Proof. intros s. unfold ARM_COMPUTE_ERROR_ON. destruct b; reflexivity. Qed.

Lemma keeps_error {A} msg : keeps_tensors (@ARM_COMPUTE_ERROR A msg).
Proof. intros s. reflexivity. Qed.

Lemma keeps_verbose i n : keeps_tensors (ARM_COMPUTE_LOG_GRAPH_VERBOSE i n).
Proof. intros s. reflexivity. Qed.

Lemma keeps_info p : keeps_tensors (info p).
Proof.
  intros s. unfold info. destruct p as [a|]; [|reflexivity].
  destruct (tensors s !! a); reflexivity.
Qed.

Lemma keeps_node_input node i : keeps_tensors (node_input node i).
Proof. intros s. unfold node_input. destruct (inputs node !! i); reflexivity. Qed.

Lemma keeps_node_output node i : keeps_tensors (node_output node i).
Proof. intros s. unfold node_output. destruct (outputs node !! i); reflexivity. Qed.

Lemma keeps_get_backing_tensor t : keeps_tensors (get_backing_tensor t).
Proof.
  unfold get_backing_tensor. destruct t as [t|]; [|apply keeps_ret].
  apply keeps_bind; [apply keeps_error_on|]. intros _. apply keeps_ret.
Qed.

Lemma keeps_get_memory_manager ctx target : keeps_tensors (get_memory_manager ctx target).
Proof. intros s. reflexivity. Qed.

Lemma keeps_make_unique cls mm : keeps_tensors (make_unique cls mm).
Proof. intros s. reflexivity. Qed.

Lemma keeps_configure func args : keeps_tensors (configure func args).
Proof. intros s. reflexivity. Qed.

Lemma keeps_create_named_function cls fname args :
  keeps_tensors (create_named_function cls fname args).
Proof. intros s. reflexivity. Qed.

Lemma keeps_create_named_memory_managed_function cls fname mm args :
  keeps_tensors (create_named_memory_managed_function cls fname mm args).
Proof. intros s. reflexivity. Qed.

Lemma keeps_log log ptrs : keeps_tensors (ARM_COMPUTE_LOG_GRAPH_INFO log ptrs).
Proof.
  unfold ARM_COMPUTE_LOG_GRAPH_INFO. destruct log; [|apply keeps_ret].
  induction ptrs as [|p ptrs IH]; [apply keeps_ret|].
  simpl. apply keeps_bind; [apply keeps_info|]. intros _. exact IH.
Qed.

Lemma keeps_resolve_inputs node indices acc :
  keeps_tensors (resolve_inputs node indices acc).
Proof.
  revert acc. induction indices as [|i rest IH]; intros acc; simpl.
  - apply keeps_ret.
  - apply keeps_bind; [apply keeps_node_input|]. intros t.
    apply keeps_bind; [apply keeps_get_backing_tensor|]. intros b. apply IH.
Qed.

Create HintDb keeps discriminated.

#[export] Hint Resolve keeps_ret keeps_emit keeps_error_on keeps_error keeps_verbose
  keeps_info keeps_node_input keeps_node_output keeps_get_backing_tensor
  keeps_get_memory_manager keeps_make_unique keeps_configure
  keeps_create_named_function keeps_create_named_memory_managed_function
  keeps_log keeps_resolve_inputs : keeps.

(** Walks down a chain of binds whose steps are known to keep the
    descriptors. *)
Ltac keeps_chain :=
  repeat (cbv zeta; apply keeps_bind; [solve [auto with keeps] | intros ?]);
  cbv zeta; auto with keeps.

(** Apart from the two convolution lowerers, no lowerer ever changes a
    tensor descriptor: whatever the node, its arity, its operands and the
    outcome of the call, the descriptors afterwards are the ones before. *)
Theorem descriptors_untouched (log : bool) (node : Node) (ctx : GraphContext) (s : State) :
  type node <> ConvolutionLayer ->
  type node <> DepthwiseConvolutionLayer ->
  tensors (final_state (create log (Some node) ctx s)) = tensors s.
Proof.
  intros Hc Hd. revert s. change (keeps_tensors (create log (Some node) ctx)).
  destruct node as [b c]. unfold type in Hc, Hd. simpl in Hc, Hd.
  unfold create, type. simpl.
  destruct c; try congruence.
  - unfold create_activation_layer. keeps_chain.
  - unfold create_batch_normalization_layer. keeps_chain.
  - unfold create_depth_concatenate_layer.
    apply keeps_bind; [auto with keeps|]. intros _.
    apply keeps_bind; [auto with keeps|]. intros _.
    destruct (negb is_enabled); keeps_chain.
  - unfold create_eltwise_layer. keeps_chain.
    destruct eltwise_operation; keeps_chain.
  - unfold create_fully_connected_layer. keeps_chain.
  - unfold create_normalization_layer. keeps_chain.
  - unfold create_pooling_layer. keeps_chain.
  - unfold create_softmax_layer. keeps_chain.
  - apply keeps_ret.
Qed.

Lemma descriptors_untouched_witness :
  tensors (final_state
             (create true
                (Some {| base := unbacked_bias_node; class := FullyConnectedLayerNode |})
                sample_ctx (sample_state QASYMM8)))
  = tensors (sample_state QASYMM8).
Proof.
  apply (descriptors_untouched true
           {| base := unbacked_bias_node; class := FullyConnectedLayerNode |}
           sample_ctx (sample_state QASYMM8)); discriminate.
Defined.

(** ** What the convolution lowerers do to descriptors *)

Lemma bind_undefined {A B} (m : M A) (f : A -> M B) s u s' :
  m s = Undefined u s' -> bind m f s = Undefined u s'.
Proof. unfold bind. intros ->. reflexivity. Qed.

Lemma keeps_convolution_tail log ctx cmethod (i w b o : option addr) conv_info :
  keeps_tensors
    (bind (get_memory_manager ctx GC) (fun mm =>
     bind (match cmethod with
           | DIRECT =>
               create_named_function GCDirectConvolutionLayer "GCDirectConvolutionLayer"
                 (ConvolutionArgs i w b o conv_info)
           | _ =>
               create_named_memory_managed_function GCConvolutionLayer "GCConvolutionLayer" mm
                 (ConvolutionArgs i w b o conv_info)
           end) (fun named =>
     bind (ARM_COMPUTE_LOG_GRAPH_INFO log [i; i; w; i; w; o]) (fun _ =>
     ret (Some (fst named)))))).
Proof.
  apply keeps_bind; [auto with keeps|]. intros mm.
  destruct cmethod; keeps_chain.
Qed.

Lemma keeps_depthwise_tail log dmethod (i w b o : option addr) conv_info :
  keeps_tensors
    (bind (match dmethod with
           | OPTIMIZED_3x3 =>
               create_named_function GCDepthwiseConvolutionLayer3x3
                 "GCDepthwiseConvolutionLayer3x3" (ConvolutionArgs i w b o conv_info)
           | _ =>
               ARM_COMPUTE_ERROR
                 "Generic DepthwiseConvolutionLayer is not supported in GLES backend"
           end) (fun named =>
     bind (ARM_COMPUTE_LOG_GRAPH_INFO log [i; i; w; i; w; o]) (fun _ =>
     ret (Some (fst named))))).
Proof. destruct dmethod; keeps_chain. Qed.

(** The quantization step of lines 161-164 and 256-259 followed by a tail
    that keeps the descriptors: either nothing changes, or the descriptor
    of the bias is the one entry that changes, to S32 with its shape
    kept. *)
Lemma coercion_then_tail {A} (input biases : option addr) (tail : M A) s :
  keeps_tensors tail ->
  let r := bind (info input) (fun i =>
           bind (if is_data_type_quantized_asymmetric (data_type i)
                 then info_set_data_type biases S32
                 else ret tt) (fun _ => tail)) s in
  tensors (final_state r) = tensors s
  \/ (exists a ia b ib,
        input = Some a /\ tensors s !! a = Some ia
        /\ is_data_type_quantized_asymmetric (data_type ia) = true
        /\ biases = Some b /\ tensors s !! b = Some ib
        /\ tensors (final_state r) = <[b := set_data_type S32 ib]> (tensors s)).
Proof.
  intros Htail r. subst r.
  destruct input as [a|]; [|left; reflexivity].
  destruct (tensors s !! a) as [ia|] eqn:Ha;
    [|left; erewrite bind_undefined by (unfold info; rewrite Ha; reflexivity); reflexivity].
  rewrite (read_info _ _ _ _ Ha).
  destruct (is_data_type_quantized_asymmetric (data_type ia)) eqn:Hq.
  - destruct biases as [b|]; [|left; reflexivity].
    destruct (tensors s !! b) as [ib|] eqn:Hb.
    + right. exists a, ia, b, ib. repeat (split; [first [reflexivity|assumption]|]).
      unfold bind at 1, info_set_data_type, bind at 1, info. rewrite Hb.
      rewrite Htail. reflexivity.
    + left. unfold bind at 1, info_set_data_type, bind at 1, info. rewrite Hb. reflexivity.
  - left. rewrite bind_ret. apply Htail.
Qed.

(** Whatever node and state the convolution or depthwise-convolution
    lowerer is given, and however the call ends, the descriptors
    afterwards are the ones before, except possibly the one of the tensor
    behind the bias slot, which then only had its datatype set to S32; no
    descriptor is added, removed or reshaped. *)
Theorem convolution_descriptors (log : bool) (node : INode) (conv_info : PadStrideInfo)
    (cmethod : ConvolutionMethod) (dmethod : DepthwiseConvolutionMethod)
    (ctx : GraphContext) (s s' : State) :
  s' = final_state (create_convolution_layer log node conv_info cmethod ctx s)
  \/ s' = final_state (create_depthwise_convolution_layer log node conv_info dmethod s) ->
  tensors s' = tensors s
  \/ (exists t b ib,
        inputs node !! 2 = Some t /\ backing t = Some b /\ tensors s !! b = Some ib
        /\ tensors s' = <[b := set_data_type S32 ib]> (tensors s)).
Proof.
  intros Hs'.
  assert (Hshape : forall (tail : option addr -> option addr -> option addr -> option addr
                                  -> M (option IFunction)),
            (forall i w b o, keeps_tensors (tail i w b o)) ->
            let r :=
              bind (ARM_COMPUTE_ERROR_ON (bool_decide (num_inputs node <> 3))
                      "node.num_inputs() != 3") (fun _ =>
              bind (ARM_COMPUTE_ERROR_ON (bool_decide (num_outputs node <> 1))
                      "node.num_outputs() != 1") (fun _ =>
              bind (node_input node 0) (fun t =>
              bind (get_backing_tensor t) (fun input =>
              bind (node_input node 1) (fun t =>
              bind (get_backing_tensor t) (fun weights =>
              bind (node_input node 2) (fun t =>
              bind (get_backing_tensor t) (fun biases =>
              bind (node_output node 0) (fun t =>
              bind (get_backing_tensor t) (fun output =>
              bind (info input) (fun i =>
              bind (if is_data_type_quantized_asymmetric (data_type i)
                    then info_set_data_type biases S32
                    else ret tt) (fun _ =>
              tail input weights biases output)))))))))))) s in
            tensors (final_state r) = tensors s
            \/ (exists t b ib,
                  inputs node !! 2 = Some t /\ backing t = Some b
                  /\ tensors s !! b = Some ib
                  /\ tensors (final_state r) = <[b := set_data_type S32 ib]> (tensors s))).
  { intros tail Htail r. subst r.
    destruct (decide (num_inputs node = 3)) as [Hi|Hi];
      [rewrite Hi, pass_arity | left; rewrite error_on_arity by exact Hi; reflexivity].
    destruct (decide (num_outputs node = 1)) as [Ho|Ho];
      [rewrite Ho, pass_arity | left; rewrite error_on_arity by exact Ho; reflexivity].
    assert (Hin : exists t_in t_w t_b, inputs node = [t_in; t_w; t_b]).
    { unfold num_inputs in Hi.
      destruct (inputs node) as [|t_in [|t_w [|t_b [|]]]]; try discriminate. eauto. }
    destruct Hin as (t_in & t_w & t_b & Hin).
    apply singleton_list in Ho as [t_out Hout].
    unfold node_input, node_output. rewrite Hin, Hout. simpl (_ !! _). cbv beta iota.
    rewrite bind_ret.
    destruct (get_backing_tensor_cases t_in s) as [[Hok1 _]|[c Hc]];
      [|left; erewrite bind_fatal by exact Hc; reflexivity].
    rewrite resolve_slot by exact Hok1. rewrite bind_ret.
    destruct (get_backing_tensor_cases t_w s) as [[Hok2 _]|[c Hc]];
      [|left; erewrite bind_fatal by exact Hc; reflexivity].
    rewrite resolve_slot by exact Hok2. rewrite bind_ret.
    destruct (get_backing_tensor_cases t_b s) as [[Hok3 _]|[c Hc]];
      [|left; erewrite bind_fatal by exact Hc; reflexivity].
    rewrite resolve_slot by exact Hok3. rewrite bind_ret.
    destruct (get_backing_tensor_cases t_out s) as [[Hok4 _]|[c Hc]];
      [|left; erewrite bind_fatal by exact Hc; reflexivity].
    rewrite resolve_slot by exact Hok4.
    destruct (coercion_then_tail (backing t_in) (backing t_b)
                (tail (backing t_in) (backing t_w) (backing t_b) (backing t_out)) s
                (Htail _ _ _ _))
      as [Hsame|(a & ia & b & ib & _ & _ & _ & Hb & Hib & Hset)].
    - left. exact Hsame.
    - right. exists t_b, b, ib. repeat (split; [first [reflexivity|assumption]|]).
      exact Hset. }
  destruct Hs' as [-> | ->].
  - apply (Hshape (fun i w b o => _)). intros i w b o.
    apply keeps_convolution_tail.
  - apply (Hshape (fun i w b o => _)). intros i w b o.
    apply keeps_depthwise_tail.
Qed.

Lemma convolution_descriptors_witness :
  let s' := final_state (create_depthwise_convolution_layer true ternary_node
                           sample_conv_info (OtherDepthwiseConvolutionMethod 2)
                           (sample_state QASYMM8)) in
  tensors s' = tensors (sample_state QASYMM8)
  \/ (exists t b ib,
        inputs ternary_node !! 2 = Some t /\ backing t = Some b
        /\ tensors (sample_state QASYMM8) !! b = Some ib
        /\ tensors s' = <[b := set_data_type S32 ib]> (tensors (sample_state QASYMM8))).
Proof.
  apply (convolution_descriptors true ternary_node sample_conv_info DIRECT
           (OtherDepthwiseConvolutionMethod 2) sample_ctx (sample_state QASYMM8)).
  right. reflexivity.
Defined.

(** ** Null pointers the convolution lowerers run into *)

(** The convolution lowerers read the datatype of the primary input, and
    write the one of the bias when that input is quantized, without a null
    check: a null input, or a null bias under a quantized input, is a null
    dereference, met before any unit is constructed. *)
Theorem convolution_null_dereference (log : bool) (node : INode)
    (conv_info : PadStrideInfo) (cmethod : ConvolutionMethod)
    (dmethod : DepthwiseConvolutionMethod) (ctx : GraphContext) (s : State)
    (t_in t_w t_b t_out : option Tensor) :
  inputs node = [t_in; t_w; t_b] ->
  outputs node = [t_out] ->
  slot_ok t_in -> slot_ok t_w -> slot_ok t_b -> slot_ok t_out ->
  (backing t_in = None
   \/ exists a ia, backing t_in = Some a /\ tensors s !! a = Some ia
                   /\ is_data_type_quantized_asymmetric (data_type ia) = true
                   /\ backing t_b = None) ->
  create_convolution_layer log node conv_info cmethod ctx s = Undefined NullDereference s
  /\ create_depthwise_convolution_layer log node conv_info dmethod s
     = Undefined NullDereference s.
Proof.
  intros Hin Hout Hok1 Hok2 Hok3 Hok4 Hnull.
  split.
  - unfold create_convolution_layer. rewrite skip_verbose.
    open_node Hin Hout. resolve_slots.
    destruct Hnull as [Hi|(a & ia & Hi & Ha & Hq & Hb)].
    + rewrite Hi. reflexivity.
    + rewrite Hi, Hb, (read_info _ _ _ _ Ha), Hq. reflexivity.
  - unfold create_depthwise_convolution_layer. rewrite skip_verbose.
    open_node Hin Hout. resolve_slots.
    destruct Hnull as [Hi|(a & ia & Hi & Ha & Hq & Hb)].
    + rewrite Hi. reflexivity.
    + rewrite Hi, Hb, (read_info _ _ _ _ Ha), Hq. reflexivity.
Qed.

Lemma convolution_null_dereference_witness :
  create_convolution_layer false unbacked_bias_node sample_conv_info DIRECT sample_ctx
    (sample_state QASYMM8)
  = Undefined NullDereference (sample_state QASYMM8).
Proof.
  apply (convolution_null_dereference false unbacked_bias_node sample_conv_info DIRECT
           OPTIMIZED_3x3 sample_ctx (sample_state QASYMM8)
           (gc_tensor (Some 1%positive)) (gc_tensor (Some 2%positive)) (gc_tensor None)
           (gc_tensor (Some 4%positive))); try reflexivity.
  right. exists 1%positive, (sample_info QASYMM8). repeat split.
Defined.

(** ** Convolution without a bias *)

(** With an input that is not quantized the bias is never dereferenced: a
    node whose bias slot resolves to null is lowered all the same, and the
    unit is configured with a null bias, by the direct, the general and
    the depthwise 3x3 path. *)
Theorem convolution_without_bias (log : bool) (node : INode) (conv_info : PadStrideInfo)
    (ctx : GraphContext) (s : State)
    (t_in t_w t_b t_out : option Tensor) (a w o : addr) (ia : ITensorInfo) :
  inputs node = [t_in; t_w; t_b] ->
  outputs node = [t_out] ->
  resolves s t_in a -> resolves s t_w w -> resolves s t_out o ->
  slot_ok t_b -> backing t_b = None ->
  tensors s !! a = Some ia ->
  is_data_type_quantized_asymmetric (data_type ia) = false ->
  let args := ConvolutionArgs (Some a) (Some w) None (Some o) conv_info in
  let mm := memory_managers ctx GC in
  create_convolution_layer log node conv_info DIRECT ctx s
  = Returned (Some {| function_class := GCDirectConvolutionLayer; manager := None;
                      configured := Some args |})
             {| tensors := tensors s;
                trace := trace s ++ [GetMemoryManager GC;
                                     MakeUnique GCDirectConvolutionLayer None;
                                     Configure GCDirectConvolutionLayer args] |}
  /\ (forall method, method <> DIRECT ->
      create_convolution_layer log node conv_info method ctx s
      = Returned (Some {| function_class := GCConvolutionLayer; manager := Some mm;
                          configured := Some args |})
                 {| tensors := tensors s;
                    trace := trace s ++ [GetMemoryManager GC;
                                         MakeUnique GCConvolutionLayer (Some mm);
                                         Configure GCConvolutionLayer args] |})
  /\ create_depthwise_convolution_layer log node conv_info OPTIMIZED_3x3 s
     = Returned (Some {| function_class := GCDepthwiseConvolutionLayer3x3; manager := None;
                         configured := Some args |})
                {| tensors := tensors s;
                   trace := trace s ++ [MakeUnique GCDepthwiseConvolutionLayer3x3 None;
                                        Configure GCDepthwiseConvolutionLayer3x3 args] |}.
Proof.
  intros Hin Hout (Hoki & Hbi & Hli) (Hokw & Hbw & Hlw) (Hoko & Hbo & Hlo) Hokb Hbb Ha Hq
         args mm.
  split; [|split; [intros method Hmethod|]].
  - unfold create_convolution_layer. rewrite skip_verbose.
    open_node Hin Hout. resolve_slots.
    rewrite Hbi, Hbw, Hbb, Hbo, (read_info _ _ _ _ Ha), Hq, bind_ret, lookup_manager.
    erewrite bind_returned by apply create_named_function_run.
    rewrite log_skip by valid_pointers.
    simpl. rewrite <- app_assoc. reflexivity.
  - unfold create_convolution_layer. rewrite skip_verbose.
    open_node Hin Hout. resolve_slots.
    rewrite Hbi, Hbw, Hbb, Hbo, (read_info _ _ _ _ Ha), Hq, bind_ret, lookup_manager.
    destruct method as [|tag]; [congruence|].
    erewrite bind_returned by apply create_named_memory_managed_function_run.
    rewrite log_skip by valid_pointers.
    simpl. rewrite <- app_assoc. reflexivity.
  - unfold create_depthwise_convolution_layer. rewrite skip_verbose.
    open_node Hin Hout. resolve_slots.
    rewrite Hbi, Hbw, Hbb, Hbo, (read_info _ _ _ _ Ha), Hq, bind_ret.
    erewrite bind_returned by apply create_named_function_run.
    rewrite log_skip by valid_pointers. reflexivity.
Qed.

Lemma convolution_without_bias_witness :
  exists s',
    create_depthwise_convolution_layer true unbacked_bias_node sample_conv_info
      OPTIMIZED_3x3 (sample_state F32)
    = Returned (Some {| function_class := GCDepthwiseConvolutionLayer3x3; manager := None;
                        configured := Some (ConvolutionArgs (Some 1%positive)
                                              (Some 2%positive) None (Some 4%positive)
                                              sample_conv_info) |}) s'.
Proof.
  eexists.
  apply (convolution_without_bias true unbacked_bias_node sample_conv_info sample_ctx
           (sample_state F32)
           (gc_tensor (Some 1%positive)) (gc_tensor (Some 2%positive)) (gc_tensor None)
           (gc_tensor (Some 4%positive)) 1%positive 2%positive 4%positive
           (sample_info F32)); try reflexivity; sample_resolves.
Defined.

(** ** Builds with and without logging *)

Lemma log_differs_bind {A B} (m : M A) (f g : A -> M B) :
  (forall a, log_differs_only_by_crash (f a) (g a)) ->
  log_differs_only_by_crash (bind m f) (bind m g).
Proof.
  intros H s. unfold bind. destruct (m s) as [a s'|e s'|u s'].
  - apply H.
  - left. reflexivity.
  - left. reflexivity.
Qed.

Lemma log_differs_refl {A} (m : M A) : log_differs_only_by_crash m m.
Proof. intros s. left. reflexivity. Qed.

Lemma log_outcome ptrs s :
  ARM_COMPUTE_LOG_GRAPH_INFO true ptrs s = Returned tt s
  \/ exists u, ARM_COMPUTE_LOG_GRAPH_INFO true ptrs s = Undefined u s.
Proof.
  unfold ARM_COMPUTE_LOG_GRAPH_INFO.
  induction ptrs as [|p ptrs IH]; [left; reflexivity|].
  simpl. unfold bind at 1 3, info.
  destruct p as [a|]; [|right; eauto].
  destruct (tensors s !! a); [exact IH|right; eauto].
Qed.

Lemma log_differs_at_log {A} ptrs (x : A) :
  log_differs_only_by_crash
    (bind (ARM_COMPUTE_LOG_GRAPH_INFO true ptrs) (fun _ => ret x))
    (bind (ARM_COMPUTE_LOG_GRAPH_INFO false ptrs) (fun _ => ret x)).
Proof.
  intros s. unfold bind. destruct (log_outcome ptrs s) as [->|[u ->]].
  - left. reflexivity.
  - right. exists u, x, s. split; reflexivity.
Qed.

Ltac log_chain :=
  repeat (cbv zeta; apply log_differs_bind; intros ?);
  cbv zeta; try apply log_differs_at_log.

(** Compiling the log statements in changes a call of the factory in one
    way only: where the build without logging returns, the build with
    logging may instead stop at a null or dangling pointer that its log
    statement reads, in the very same state.  In every other case the two
    builds end alike. *)
Theorem logging_only_adds_crashes (node : option Node) (ctx : GraphContext) :
  log_differs_only_by_crash (create true node ctx) (create false node ctx).
Proof.
  destruct node as [[b c]|]; [|apply log_differs_refl].
  unfold create, type. simpl.
  destruct c; try apply log_differs_refl.
  - unfold create_activation_layer. log_chain.
  - unfold create_batch_normalization_layer. log_chain.
  - unfold create_convolution_layer. log_chain.
  - unfold create_depth_concatenate_layer.
    apply log_differs_bind; intros _. apply log_differs_bind; intros _.
    destruct (negb is_enabled); [apply log_differs_refl|log_chain].
  - unfold create_depthwise_convolution_layer. log_chain.
  - unfold create_eltwise_layer. log_chain.
  - unfold create_fully_connected_layer. log_chain.
  - unfold create_normalization_layer. log_chain.
  - unfold create_pooling_layer. log_chain.
  - unfold create_softmax_layer. log_chain.
Qed.

(** ** Calls into the runtime library *)

Lemma extends_ret {A} Q n (a : A) : extends Q n (ret a).
Proof.
  intros s. exists []. simpl. rewrite app_nil_r.
  split; [reflexivity|]. split; [constructor|]. unfold constructions. simpl. lia.
Qed.

Lemma extends_bind {A B} Q n1 n2 n (m : M A) (f : A -> M B) :
  extends Q n1 m -> (forall a, extends Q n2 (f a)) -> n1 + n2 <= n ->
  extends Q n (bind m f).
Proof.
  intros Hm Hf Hn s. unfold bind. destruct (Hm s) as (tr1 & Ht1 & HQ1 & Hn1).
  destruct (m s) as [a s1|e s1|u s1]; simpl in *.
  - destruct (Hf a s1) as (tr2 & Ht2 & HQ2 & Hn2).
    exists (tr1 ++ tr2). rewrite Ht2, Ht1, <- app_assoc.
    split; [reflexivity|]. split; [apply Forall_app; split; assumption|].
    rewrite constructions_app. lia.
  - exists tr1. split; [exact Ht1|]. split; [exact HQ1|]. lia.
  - exists tr1. split; [exact Ht1|]. split; [exact HQ1|]. lia.
Qed.

Lemma extends_silent {A} Q n (m : M A) :
  (forall s, trace (final_state (m s)) = trace s) -> extends Q n m.
Proof.
  intros H s. exists []. rewrite H, app_nil_r.
  split; [reflexivity|]. split; [constructor|]. unfold constructions. simpl. lia.
Qed.

Lemma extends_emit Q n e :
  Q e -> constructions [e] <= n -> extends Q n (emit e).
Proof.
  intros HQ Hn s. exists [e]. split; [reflexivity|]. split; [|exact Hn].
  constructor; [exact HQ|constructor].
Qed.

Lemma extends_error_on Q n b cond : extends Q n (ARM_COMPUTE_ERROR_ON b cond).
Proof.
  apply extends_silent. intros s. unfold ARM_COMPUTE_ERROR_ON. destruct b; reflexivity.
Qed.

Lemma extends_error {A} Q n msg : extends Q n (@ARM_COMPUTE_ERROR A msg).
Proof. apply extends_silent. reflexivity. Qed.

Lemma extends_verbose Q n i nm : extends Q n (ARM_COMPUTE_LOG_GRAPH_VERBOSE i nm).
Proof. apply extends_silent. reflexivity. Qed.

Lemma extends_info Q n p : extends Q n (info p).
Proof.
  apply extends_silent. intros s. unfold info. destruct p as [a|]; [|reflexivity].
  destruct (tensors s !! a); reflexivity.
Qed.

Lemma extends_node_input Q n node i : extends Q n (node_input node i).
Proof.
  apply extends_silent. intros s. unfold node_input.
  destruct (inputs node !! i); reflexivity.
Qed.

Lemma extends_node_output Q n node i : extends Q n (node_output node i).
Proof.
  apply extends_silent. intros s. unfold node_output.
  destruct (outputs node !! i); reflexivity.
Qed.

Lemma extends_get_backing_tensor Q n t : extends Q n (get_backing_tensor t).
Proof.
  apply extends_silent. intros s.
  destruct (get_backing_tensor_cases t s) as [[_ ->]|[c ->]]; reflexivity.
Qed.

Lemma extends_log Q n log ptrs : extends Q n (ARM_COMPUTE_LOG_GRAPH_INFO log ptrs).
Proof.
  apply extends_silent. intros s.
  unfold ARM_COMPUTE_LOG_GRAPH_INFO. destruct log; [|reflexivity].
  induction ptrs as [|p ptrs IH]; [reflexivity|].
  simpl. unfold bind at 1, info.
  destruct p as [a|]; [|reflexivity].
  destruct (tensors s !! a); [exact IH|reflexivity].
Qed.

Lemma extends_resolve_inputs Q n node indices acc :
  extends Q n (resolve_inputs node indices acc).
Proof.
  revert acc. induction indices as [|i rest IH]; intros acc; simpl.
  - apply extends_ret.
  - apply (extends_bind Q 0 n n); [apply extends_node_input| |lia]. intros t.
    apply (extends_bind Q 0 n n); [apply extends_get_backing_tensor| |lia]. intros b.
    apply IH.
Qed.

Lemma extends_get_memory_manager Q n ctx target :
  Q (GetMemoryManager target) -> extends Q n (get_memory_manager ctx target).
Proof.
  intros HQ. unfold get_memory_manager.
  apply (extends_bind Q n 0 n); [|intros _; apply extends_ret|lia].
  apply extends_emit; [exact HQ|]. unfold constructions. simpl. lia.
Qed.

Lemma extends_make_unique Q cls mm :
  Q (MakeUnique cls mm) -> extends Q 1 (make_unique cls mm).
Proof.
  intros HQ. unfold make_unique.
  apply (extends_bind Q 1 0 1); [|intros _; apply extends_ret|lia].
  apply extends_emit; [exact HQ|]. unfold constructions. simpl. lia.
Qed.

Lemma extends_configure Q n func args :
  Q (Configure (function_class func) args) -> extends Q n (configure func args).
Proof.
  intros HQ. unfold configure.
  apply (extends_bind Q n 0 n); [|intros _; apply extends_ret|lia].
  apply extends_emit; [exact HQ|]. unfold constructions. simpl. lia.
Qed.

Lemma extends_info_set_data_type Q n p dt :
  (forall a, Q (SetDataType a dt)) -> extends Q n (info_set_data_type p dt).
Proof.
  intros HQ s. unfold info_set_data_type, bind, info.
  destruct p as [a|].
  - destruct (tensors s !! a); simpl.
    + exists [SetDataType a dt]. split; [reflexivity|].
      split; [constructor; [apply HQ|constructor]|]. unfold constructions. simpl. lia.
    + exists []. rewrite app_nil_r. split; [reflexivity|].
      split; [constructor|]. unfold constructions. simpl. lia.
  - simpl. exists []. rewrite app_nil_r. split; [reflexivity|].
    split; [constructor|]. unfold constructions. simpl. lia.
Qed.

(** The events a lowerer records besides lookups and datatype changes. *)
Lemma lookup_allowed_make t cls mm : lookup_allowed t (MakeUnique cls mm).
Proof. exact I. Qed.

Lemma lookup_allowed_configure t cls args : lookup_allowed t (Configure cls args).
Proof. exact I. Qed.

Ltac extends_leaf :=
  first
    [ apply extends_ret | apply extends_error_on | apply extends_error
    | apply extends_verbose | apply extends_info | apply extends_node_input
    | apply extends_node_output | apply extends_get_backing_tensor
    | apply extends_log | apply extends_resolve_inputs
    | apply extends_get_memory_manager; reflexivity
    | apply extends_configure; apply lookup_allowed_configure
    | apply extends_info_set_data_type; intros ?; reflexivity ].

(** Steps that construct nothing, up to the one construction, then the
    steps after it. *)
Ltac extends_chain :=
  repeat (cbv zeta;
          first [ apply (extends_bind _ 0 1 1); [solve [extends_leaf] | intros ? | lia]
                | apply (extends_bind _ 0 0 0); [solve [extends_leaf] | intros ? | lia] ]);
  cbv zeta;
  try (apply (extends_bind _ 1 0 1);
       [ apply extends_make_unique; apply lookup_allowed_make | intros ? | lia ];
       repeat (cbv zeta; apply (extends_bind _ 0 0 0);
               [solve [extends_leaf] | intros ? | lia]));
  cbv zeta; try solve [extends_leaf].

Lemma extends_named_function t cls fname args :
  extends (lookup_allowed t) 1 (create_named_function cls fname args).
Proof. unfold create_named_function. extends_chain. Qed.

Lemma extends_named_memory_managed_function t cls fname mm args :
  extends (lookup_allowed t) 1 (create_named_memory_managed_function cls fname mm args).
Proof. unfold create_named_memory_managed_function. extends_chain. Qed.

Ltac extends_named :=
  apply (extends_bind _ 1 0 1);
  [ first [ apply extends_named_function | apply extends_named_memory_managed_function
          | apply extends_error ]
  | intros ?; repeat (cbv zeta; apply (extends_bind _ 0 0 0);
                      [solve [extends_leaf] | intros ? | lia]); extends_leaf
  | lia ].

Lemma create_extends (log : bool) (node : Node) (ctx : GraphContext) :
  extends (lookup_allowed (type node)) 1 (create log (Some node) ctx).
Proof.
  destruct node as [b c]. unfold create, type. simpl.
  destruct c.
  - unfold create_activation_layer. extends_chain.
  - unfold create_batch_normalization_layer. extends_chain.
  - unfold create_convolution_layer. extends_chain.
    apply (extends_bind _ 0 1 1); [|intros _|lia].
    { match goal with |- extends _ _ (if ?c then _ else _) => destruct c end;
        extends_leaf. }
    extends_chain. destruct convolution_method; extends_named.
  - unfold create_depth_concatenate_layer.
    apply (extends_bind _ 0 1 1); [extends_leaf|intros _|lia].
    apply (extends_bind _ 0 1 1); [extends_leaf|intros _|lia].
    destruct (negb is_enabled); [extends_leaf|extends_chain].
  - unfold create_depthwise_convolution_layer. extends_chain.
    apply (extends_bind _ 0 1 1); [|intros _|lia].
    { match goal with |- extends _ _ (if ?c then _ else _) => destruct c end;
        extends_leaf. }
    cbv zeta. destruct depthwise_convolution_method; extends_named.
  - unfold create_eltwise_layer. extends_chain.
    destruct eltwise_operation; extends_named.
  - unfold create_fully_connected_layer. extends_chain.
  - unfold create_normalization_layer. extends_chain.
  - unfold create_pooling_layer. extends_chain.
  - unfold create_softmax_layer. extends_chain.
  - extends_leaf.
Qed.

(** Every call of the factory, whatever the node and however it ends, only
    appends to the record of runtime calls and constructs at most one
    function object.  A memory manager is looked up only by the
    convolution and fully connected lowerers, under the GLES tag, and by
    the softmax lowerer, under the OpenCL tag; a datatype is set only by
    the two convolution lowerers, and only to S32. *)
Theorem create_runtime_calls (log : bool) (node : Node) (ctx : GraphContext) (s : State) :
  exists tr,
    trace (final_state (create log (Some node) ctx s)) = trace s ++ tr
    /\ constructions tr <= 1
    /\ (forall target, GetMemoryManager target ∈ tr ->
        ((type node = ConvolutionLayer \/ type node = FullyConnectedLayer) /\ target = GC)
        \/ (type node = SoftmaxLayer /\ target = CL))
    /\ (forall a dt, SetDataType a dt ∈ tr ->
        (type node = ConvolutionLayer \/ type node = DepthwiseConvolutionLayer)
        /\ dt = S32).
Proof.
  destruct (create_extends log node ctx s) as (tr & Htr & HQ & Hn).
  exists tr. split; [exact Htr|]. split; [exact Hn|].
  rewrite Forall_forall in HQ. split.
  - intros target Hin. specialize (HQ _ Hin). simpl in HQ.
    destruct (type node); try contradiction; subst target; eauto.
  - intros a dt Hin. specialize (HQ _ Hin). simpl in HQ.
    destruct (type node); try contradiction; subst dt; eauto.
Qed.

(** ** Units are returned configured *)

Lemma delivers_bind {A} (m : M A) (f : A -> M (option IFunction)) :
  (forall a, delivers_configured (f a)) -> delivers_configured (bind m f).
Proof.
  intros Hf s u s' Hrun. unfold bind in Hrun.
  destruct (m s) as [a s1|e s1|x s1]; try discriminate.
  exact (Hf a s1 u s' Hrun).
Qed.

Lemma delivers_none : delivers_configured (ret None).
Proof. intros s u s' Hrun. discriminate. Qed.

Lemma log_returns log ptrs s x s' :
  ARM_COMPUTE_LOG_GRAPH_INFO log ptrs s = Returned x s' -> s' = s.
Proof.
  intros Hrun.
  destruct log; [|injection Hrun as _ <-; reflexivity].
  destruct (log_outcome ptrs s) as [H|[u H]]; rewrite H in Hrun.
  - injection Hrun as _ <-. reflexivity.
  - discriminate.
Qed.

Lemma delivers_after_log log ptrs (u : IFunction) :
  forall s s' r,
    bind (ARM_COMPUTE_LOG_GRAPH_INFO log ptrs) (fun _ => ret (Some u)) s = Returned r s' ->
    r = Some u /\ s' = s.
Proof.
  intros s s' r Hrun. unfold bind in Hrun.
  destruct (ARM_COMPUTE_LOG_GRAPH_INFO log ptrs s) as [x s1|e s1|x s1] eqn:Hlog;
    try discriminate.
  apply log_returns in Hlog. subst s1. injection Hrun as <- <-. split; reflexivity.
Qed.

Lemma delivers_make_configure log cls mm args ptrs :
  delivers_configured
    (bind (make_unique cls mm) (fun func =>
     bind (configure func args) (fun func =>
     bind (ARM_COMPUTE_LOG_GRAPH_INFO log ptrs) (fun _ => ret (Some func))))).
Proof.
  intros s u s' Hrun. rewrite make_and_configure in Hrun.
  apply delivers_after_log in Hrun as [Hu ->]. injection Hu as ->.
  exists args, (trace s). split; reflexivity.
Qed.

Lemma delivers_make_configure_checked log cls mm args b1 c1 b2 c2 b3 c3 ptrs :
  delivers_configured
    (bind (make_unique cls mm) (fun func =>
     bind (configure func args) (fun func =>
     bind (ARM_COMPUTE_ERROR_ON b1 c1) (fun _ =>
     bind (ARM_COMPUTE_ERROR_ON b2 c2) (fun _ =>
     bind (ARM_COMPUTE_ERROR_ON b3 c3) (fun _ =>
     bind (ARM_COMPUTE_LOG_GRAPH_INFO log ptrs) (fun _ => ret (Some func)))))))).
Proof.
  intros s u s' Hrun. rewrite make_and_configure in Hrun.
  unfold bind at 1 2 3, ARM_COMPUTE_ERROR_ON in Hrun.
  destruct b1; [discriminate|]. destruct b2; [discriminate|].
  destruct b3; [discriminate|].
  apply delivers_after_log in Hrun as [Hu ->]. injection Hu as ->.
  exists args, (trace s). split; reflexivity.
Qed.

Lemma delivers_named log (named : M (IFunction * string)) ptrs :
  (forall s f fname s', named s = Returned (f, fname) s' ->
     exists args before,
       configured f = Some args
       /\ trace s' = before ++ [MakeUnique (function_class f) (manager f);
                                Configure (function_class f) args]) ->
  delivers_configured
    (bind named (fun named =>
     bind (ARM_COMPUTE_LOG_GRAPH_INFO log ptrs) (fun _ => ret (Some (fst named))))).
Proof.
  intros Hnamed s u s' Hrun. unfold bind at 1 in Hrun.
  destruct (named s) as [[f fname] s1|e s1|x s1] eqn:Hn; try discriminate.
  apply delivers_after_log in Hrun as [Hu ->]. simpl in Hu. injection Hu as ->.
  exact (Hnamed s f fname s1 Hn).
Qed.

Lemma named_function_delivers cls fname args s f fname' s' :
  create_named_function cls fname args s = Returned (f, fname') s' ->
  exists args' before,
    configured f = Some args'
    /\ trace s' = before ++ [MakeUnique (function_class f) (manager f);
                             Configure (function_class f) args'].
Proof.
  rewrite create_named_function_run. intros Hrun. injection Hrun as <- _ <-.
  exists args, (trace s). split; reflexivity.
Qed.

Lemma named_memory_managed_function_delivers cls fname mm args s f fname' s' :
  create_named_memory_managed_function cls fname mm args s = Returned (f, fname') s' ->
  exists args' before,
    configured f = Some args'
    /\ trace s' = before ++ [MakeUnique (function_class f) (manager f);
                             Configure (function_class f) args'].
Proof.
  rewrite create_named_memory_managed_function_run. intros Hrun. injection Hrun as <- _ <-.
  exists args, (trace s). split; reflexivity.
Qed.

Ltac delivers_chain :=
  repeat (cbv zeta;
          first [ apply delivers_make_configure
                | apply delivers_make_configure_checked
                | apply delivers_none
                | apply delivers_bind; intros ? ]).

Ltac delivers_named_case :=
  apply delivers_named; intros ? ? ? ?;
  first [ apply named_function_delivers
        | apply named_memory_managed_function_delivers
        | discriminate ].

(** A unit the factory returns is never half-built: it was constructed and
    then configured by the last two calls made into the runtime library,
    and it carries the memory manager and the arguments of those calls. *)
Theorem create_returns_configured (log : bool) (node : option Node) (ctx : GraphContext)
    (s s' : State) (u : IFunction) :
  create log node ctx s = Returned (Some u) s' ->
  exists args before,
    configured u = Some args
    /\ trace s' = before ++ [MakeUnique (function_class u) (manager u);
                             Configure (function_class u) args].
Proof.
  revert s u s'. change (delivers_configured (create log node ctx)).
  destruct node as [[b c]|]; [|apply delivers_none].
  unfold create, type. simpl.
  destruct c; try apply delivers_none.
  - unfold create_activation_layer. delivers_chain.
  - unfold create_batch_normalization_layer. delivers_chain.
  - unfold create_convolution_layer.
    do 14 (cbv zeta; apply delivers_bind; intros ?).
    destruct convolution_method; delivers_named_case.
  - unfold create_depth_concatenate_layer.
    apply delivers_bind; intros _. apply delivers_bind; intros _.
    destruct (negb is_enabled); delivers_chain.
  - unfold create_depthwise_convolution_layer.
    do 13 (cbv zeta; apply delivers_bind; intros ?).
    destruct depthwise_convolution_method; delivers_named_case.
  - unfold create_eltwise_layer.
    do 12 (cbv zeta; apply delivers_bind; intros ?).
    destruct eltwise_operation; delivers_named_case.
  - unfold create_fully_connected_layer. delivers_chain.
  - unfold create_normalization_layer. delivers_chain.
  - unfold create_pooling_layer. delivers_chain.
  - unfold create_softmax_layer. delivers_chain.
Qed.

Lemma create_returns_configured_witness :
  exists u s' args before,
    create true (Some {| base := unary_node; class := SoftmaxLayerNode float_one |})
      sample_ctx (sample_state F32) = Returned (Some u) s'
    /\ configured u = Some args
    /\ trace s' = before ++ [MakeUnique (function_class u) (manager u);
                             Configure (function_class u) args].
Proof.
  eexists. eexists.
  assert (Hrun : create true
                   (Some {| base := unary_node; class := SoftmaxLayerNode float_one |})
                   sample_ctx (sample_state F32)
                 = Returned (Some _) _) by (vm_compute; reflexivity).
  destruct (create_returns_configured true _ sample_ctx _ _ _ Hrun)
    as (args & before & Hcfg & Htrace).
  exists args, before. split; [exact Hrun|]. split; [exact Hcfg|exact Htrace].
Defined.

(** ** Tensors of another backend *)

Lemma resolve_inputs_cases node s :
  forall n k acc,
    k + n = length (inputs node) ->
    (Forall slot_ok (drop k (inputs node))
     /\ resolve_inputs node (seq k n) acc s
        = Returned (acc ++ map backing (drop k (inputs node))) s)
    \/ (exists cond, resolve_inputs node (seq k n) acc s = Fatal (AssertionFailed cond) s).
Proof.
  intros n. induction n as [|n IH]; intros k acc Hlen; simpl.
  - left. rewrite drop_ge by lia. rewrite app_nil_r. split; [constructor|reflexivity].
  - destruct (lookup_lt_is_Some_2 (inputs node) k) as [t Ht]; [lia|].
    unfold node_input. rewrite Ht, bind_ret.
    destruct (get_backing_tensor_cases t s) as [[Hok _]|[c Hc]];
      [|right; exists c; apply bind_fatal; exact Hc].
    rewrite resolve_slot by exact Hok.
    rewrite (drop_S _ _ _ Ht).
    destruct (IH (S k) (acc ++ [backing t])) as [[Hrest Hrun]|[c Hc]]; [lia| |].
    + left. split; [constructor; assumption|].
      rewrite Hrun. simpl. rewrite <- app_assoc. reflexivity.
    + right. exists c. exact Hc.
Qed.

Ltac slot_step t s :=
  rewrite ?bind_ret;
  let Hok := fresh "Hok" in
  let c := fresh "c" in
  let Hc := fresh "Hc" in
  destruct (get_backing_tensor_cases t s) as [[Hok _]|[c Hc]];
  [ rewrite resolve_slot by exact Hok
  | exists c; apply bind_fatal; exact Hc ].

Ltac no_foreign_slot Hbad :=
  exfalso;
  let t := fresh "t" in
  let Hin := fresh "Hin" in
  let Hne := fresh "Hne" in
  destruct Hbad as (t & Hin & Hne); simpl in Hin;
  repeat (apply elem_of_cons in Hin as [Hin|Hin];
          [subst; simpl in *; contradiction|]);
  inversion Hin.

Lemma fixed_slots_1 (node : INode) :
  num_inputs node = 1 -> exists t1, inputs node = [t1].
Proof. apply singleton_list. Qed.

Lemma fixed_slots_2 (node : INode) :
  num_inputs node = 2 -> exists t1 t2, inputs node = [t1; t2].
Proof.
  unfold num_inputs. destruct (inputs node) as [|t1 [|t2 [|]]]; try discriminate. eauto.
Qed.

Lemma fixed_slots_3 (node : INode) :
  num_inputs node = 3 -> exists t1 t2 t3, inputs node = [t1; t2; t3].
Proof.
  unfold num_inputs. destruct (inputs node) as [|t1 [|t2 [|t3 [|]]]]; try discriminate.
  eauto.
Qed.

Lemma fixed_slots_5 (node : INode) :
  num_inputs node = 5 -> exists t1 t2 t3 t4 t5, inputs node = [t1; t2; t3; t4; t5].
Proof.
  unfold num_inputs.
  destruct (inputs node) as [|t1 [|t2 [|t3 [|t4 [|t5 [|]]]]]]; try discriminate.
  eauto 6.
Qed.

Lemma fixed_output (node : INode) :
  num_outputs node = 1 -> exists t, outputs node = [t].
Proof. apply singleton_list. Qed.

(** The slots of a node of fixed arity, as the lists they are. *)
Ltac fixed_slots Har :=
  let Hi := fresh "Hi" in
  let Ho := fresh "Ho" in
  apply andb_true_iff in Har as [Hi Ho];
  apply bool_decide_eq_true in Hi; apply bool_decide_eq_true in Ho;
  first [ apply fixed_slots_5 in Hi as (? & ? & ? & ? & ? & Hi)
        | apply fixed_slots_3 in Hi as (? & ? & ? & Hi)
        | apply fixed_slots_2 in Hi as (? & ? & Hi)
        | apply fixed_slots_1 in Hi as (? & Hi) ];
  apply fixed_output in Ho as (? & Ho);
  rewrite skip_verbose; open_node Hi Ho.

(** A node of a supported kind and of the right arity that holds, in any
    input or output slot, a tensor declared for a target other than GLES
    is rejected by the target assertion of the resolver before anything
    is looked up, constructed or changed.  The one exception is the
    switched-off concatenation, which resolves nothing. *)
Theorem backend_mismatch_fatal (log : bool) (node : Node) (ctx : GraphContext) (s : State) :
  supported (type node) = true ->
  has_fixed_arity node = true ->
  class node <> DepthConcatenateLayerNode false ->
  (exists t, Some t ∈ inputs (base node) ++ outputs (base node) /\ desc_target t <> GC) ->
  exists cond, create log (Some node) ctx s = Fatal (AssertionFailed cond) s.
Proof.
  destruct node as [b c]. unfold has_fixed_arity, create, type. simpl.
  intros Hsup Har Hon Hbad.
  destruct c; simpl in Hsup, Har; try discriminate.
  - unfold create_activation_layer. fixed_slots Har. rewrite Hi, Ho in Hbad.
    slot_step x s. slot_step x0 s. no_foreign_slot Hbad.
  - unfold create_batch_normalization_layer. fixed_slots Har. rewrite Hi, Ho in Hbad.
    slot_step x s. slot_step x0 s. slot_step x1 s. slot_step x2 s. slot_step x3 s.
    slot_step x4 s. no_foreign_slot Hbad.
  - unfold create_convolution_layer. fixed_slots Har. rewrite Hi, Ho in Hbad.
    slot_step x s. slot_step x0 s. slot_step x1 s. slot_step x2 s.
    no_foreign_slot Hbad.
  - destruct is_enabled; [|congruence].
    apply bool_decide_eq_true in Har. apply fixed_output in Har as (t_out & Ho).
    unfold create_depth_concatenate_layer. rewrite skip_verbose.
    unfold num_outputs. rewrite Ho. simpl length. rewrite pass_arity.
    change (negb true) with false. cbv iota.
    destruct (resolve_inputs_cases b s (num_inputs b) 0 []) as [[Hall Hrun]|[c Hc]];
      [reflexivity| |exists c; apply bind_fatal; exact Hc].
    erewrite bind_returned by exact Hrun.
    unfold node_output. rewrite Ho. simpl (_ !! _). cbv iota.
    slot_step t_out s.
    exfalso. destruct Hbad as (t & Hin & Hne). rewrite Ho in Hin.
    apply elem_of_app in Hin as [Hin|Hin].
    + rewrite drop_0 in Hall. rewrite Forall_forall in Hall.
      apply Hall in Hin. simpl in Hin. contradiction.
    + apply list_elem_of_singleton in Hin. subst t_out. simpl in *. contradiction.
  - unfold create_depthwise_convolution_layer. fixed_slots Har. rewrite Hi, Ho in Hbad.
    slot_step x s. slot_step x0 s. slot_step x1 s. slot_step x2 s.
    no_foreign_slot Hbad.
  - unfold create_eltwise_layer. fixed_slots Har. rewrite Hi, Ho in Hbad.
    slot_step x s. slot_step x0 s. slot_step x1 s. no_foreign_slot Hbad.
  - unfold create_fully_connected_layer. fixed_slots Har. rewrite Hi, Ho in Hbad.
    slot_step x s. slot_step x0 s. slot_step x1 s. slot_step x2 s.
    no_foreign_slot Hbad.
  - unfold create_normalization_layer. fixed_slots Har. rewrite Hi, Ho in Hbad.
    slot_step x s. slot_step x0 s. no_foreign_slot Hbad.
  - unfold create_pooling_layer. fixed_slots Har. rewrite Hi, Ho in Hbad.
    slot_step x s. slot_step x0 s. no_foreign_slot Hbad.
  - unfold create_softmax_layer. fixed_slots Har. rewrite Hi, Ho in Hbad.
    slot_step x s. slot_step x0 s. no_foreign_slot Hbad.
Qed.

Lemma backend_mismatch_fatal_witness :
  exists cond,
    create true
      (Some {| base := sample_node [Some {| desc_target := CL; handle := Some 1%positive |}]
                                   [gc_tensor (Some 4%positive)];
               class := PoolingLayerNode {| pool_type := AVG; pool_size := 3;
                                            pool_pad_stride := sample_conv_info |} |})
      sample_ctx (sample_state F32)
    = Fatal (AssertionFailed cond) (sample_state F32).
Proof.
  apply (backend_mismatch_fatal true
           {| base := sample_node [Some {| desc_target := CL; handle := Some 1%positive |}]
                                  [gc_tensor (Some 4%positive)];
              class := PoolingLayerNode {| pool_type := AVG; pool_size := 3;
                                           pool_pad_stride := sample_conv_info |} |}
           sample_ctx (sample_state F32)).
  - reflexivity.
  - reflexivity.
  - discriminate.
  - exists {| desc_target := CL; handle := Some 1%positive |}.
    split; [apply list_elem_of_here|discriminate].
Defined.

(** ** Units of the lowerers without algorithm choice *)

(** On an activation node with one input and one output resolving to valid
    backing tensors the lowerer returns a unit configured with the input,
    the output and the node's activation info.  It looks no memory manager
    up, and input and output may be the same tensor. *)
Theorem activation_unit (log : bool) (node : INode) (act_info : ActivationLayerInfo)
    (s : State) (t_in t_out : option Tensor) (a o : addr) :
  inputs node = [t_in] -> outputs node = [t_out] ->
  resolves s t_in a -> resolves s t_out o ->
  let args := ActivationArgs (Some a) (Some o) act_info in
  create_activation_layer log node act_info s
  = Returned (Some {| function_class := GCActivationLayer; manager := None;
                      configured := Some args |})
             {| tensors := tensors s;
                trace := trace s ++ [MakeUnique GCActivationLayer None;
                                     Configure GCActivationLayer args] |}.
Proof.
  intros Hin Hout (Hoki & Hbi & Hli) (Hoko & Hbo & Hlo) args.
  unfold create_activation_layer. rewrite skip_verbose.
  open_node Hin Hout. resolve_slots. rewrite Hbi, Hbo, make_and_configure.
  rewrite log_skip by valid_pointers. reflexivity.
Qed.

Lemma activation_unit_witness :
  create_activation_layer true
    (sample_node [gc_tensor (Some 1%positive)] [gc_tensor (Some 1%positive)])
    sample_relu (sample_state F32)
  = let args := ActivationArgs (Some 1%positive) (Some 1%positive) sample_relu in
    Returned (Some {| function_class := GCActivationLayer; manager := None;
                      configured := Some args |})
             {| tensors := tensors (sample_state F32);
                trace := [MakeUnique GCActivationLayer None;
                          Configure GCActivationLayer args] |}.
Proof.
  apply (activation_unit true
           (sample_node [gc_tensor (Some 1%positive)] [gc_tensor (Some 1%positive)])
           sample_relu (sample_state F32)
           (gc_tensor (Some 1%positive)) (gc_tensor (Some 1%positive))
           1%positive 1%positive); try reflexivity; sample_resolves.
Defined.

(** On a batch-normalization node with five inputs and one output
    resolving to valid backing tensors, the unit is configured with the
    input slots in the order data, mean, variance, beta, gamma, placed in
    the call as (input, output, mean, var, beta, gamma), and with the
    node's epsilon and fused activation. *)
Theorem batch_normalization_unit (log : bool) (node : INode) (epsilon : float)
    (fused_act : ActivationLayerInfo) (s : State)
    (t_in t_mean t_var t_beta t_gamma t_out : option Tensor)
    (a_in a_mean a_var a_beta a_gamma a_out : addr) :
  inputs node = [t_in; t_mean; t_var; t_beta; t_gamma] ->
  outputs node = [t_out] ->
  resolves s t_in a_in -> resolves s t_mean a_mean -> resolves s t_var a_var ->
  resolves s t_beta a_beta -> resolves s t_gamma a_gamma -> resolves s t_out a_out ->
  let args := BatchNormalizationArgs (Some a_in) (Some a_out) (Some a_mean) (Some a_var)
                (Some a_beta) (Some a_gamma) epsilon fused_act in
  create_batch_normalization_layer log node epsilon fused_act s
  = Returned (Some {| function_class := GCBatchNormalizationLayer; manager := None;
                      configured := Some args |})
             {| tensors := tensors s;
                trace := trace s ++ [MakeUnique GCBatchNormalizationLayer None;
                                     Configure GCBatchNormalizationLayer args] |}.
Proof.
  intros Hin Hout (Hok1 & Hb1 & Hl1) (Hok2 & Hb2 & Hl2) (Hok3 & Hb3 & Hl3)
         (Hok4 & Hb4 & Hl4) (Hok5 & Hb5 & Hl5) (Hoko & Hbo & Hlo) args.
  unfold create_batch_normalization_layer. rewrite skip_verbose.
  open_node Hin Hout. resolve_slots.
  rewrite Hb1, Hb2, Hb3, Hb4, Hb5, Hbo, make_and_configure.
  rewrite log_skip by valid_pointers. reflexivity.
Qed.

Lemma batch_normalization_unit_witness :
  exists s',
    create_batch_normalization_layer true
      (sample_node [gc_tensor (Some 1%positive); gc_tensor (Some 2%positive);
                    gc_tensor (Some 3%positive); gc_tensor (Some 2%positive);
                    gc_tensor (Some 3%positive)]
                   [gc_tensor (Some 4%positive)])
      float_one sample_relu (sample_state F32)
    = Returned
        (Some {| function_class := GCBatchNormalizationLayer; manager := None;
                 configured :=
                   Some (BatchNormalizationArgs (Some 1%positive) (Some 4%positive)
                           (Some 2%positive) (Some 3%positive) (Some 2%positive)
                           (Some 3%positive) float_one sample_relu) |}) s'.
Proof.
  eexists.
  apply (batch_normalization_unit true
           (sample_node [gc_tensor (Some 1%positive); gc_tensor (Some 2%positive);
                         gc_tensor (Some 3%positive); gc_tensor (Some 2%positive);
                         gc_tensor (Some 3%positive)]
                        [gc_tensor (Some 4%positive)])
           float_one sample_relu (sample_state F32)
           (gc_tensor (Some 1%positive)) (gc_tensor (Some 2%positive))
           (gc_tensor (Some 3%positive)) (gc_tensor (Some 2%positive))
           (gc_tensor (Some 3%positive)) (gc_tensor (Some 4%positive))
           1%positive 2%positive 3%positive 2%positive 3%positive 4%positive);
    try reflexivity; sample_resolves.
Defined.

(** On a node with one input and one output resolving to valid backing
    tensors, the normalization and the pooling lowerer each return a unit
    configured with the input, the output and the node's info, constructed
    without a memory manager and with no lookup made. *)
Theorem normalization_pooling_units (log : bool) (node : INode) (s : State)
    (t_in t_out : option Tensor) (a o : addr) :
  inputs node = [t_in] -> outputs node = [t_out] ->
  resolves s t_in a -> resolves s t_out o ->
  (forall norm_info,
     let args := NormalizationArgs (Some a) (Some o) norm_info in
     create_normalization_layer log node norm_info s
     = Returned (Some {| function_class := GCNormalizationLayer; manager := None;
                         configured := Some args |})
                {| tensors := tensors s;
                   trace := trace s ++ [MakeUnique GCNormalizationLayer None;
                                        Configure GCNormalizationLayer args] |})
  /\ (forall pool_info,
     let args := PoolingArgs (Some a) (Some o) pool_info in
     create_pooling_layer log node pool_info s
     = Returned (Some {| function_class := GCPoolingLayer; manager := None;
                         configured := Some args |})
                {| tensors := tensors s;
                   trace := trace s ++ [MakeUnique GCPoolingLayer None;
                                        Configure GCPoolingLayer args] |}).
Proof.
  intros Hin Hout (Hoki & Hbi & Hli) (Hoko & Hbo & Hlo).
  split; intros info0 args.
  - unfold create_normalization_layer. rewrite skip_verbose.
    open_node Hin Hout. resolve_slots.
    rewrite Hbi, Hbo, !pass_null_check, make_and_configure.
    rewrite log_skip by valid_pointers. reflexivity.
  - unfold create_pooling_layer. rewrite skip_verbose.
    open_node Hin Hout. resolve_slots.
    rewrite Hbi, Hbo, !pass_null_check, make_and_configure.
    rewrite log_skip by valid_pointers. reflexivity.
Qed.

Lemma normalization_pooling_units_witness :
  exists s',
    create_pooling_layer true unary_node
      {| pool_type := MAX; pool_size := 2; pool_pad_stride := sample_conv_info |}
      (sample_state F32)
    = Returned
        (Some {| function_class := GCPoolingLayer; manager := None;
                 configured :=
                   Some (PoolingArgs (Some 1%positive) (Some 4%positive)
                           {| pool_type := MAX; pool_size := 2;
                              pool_pad_stride := sample_conv_info |}) |}) s'.
Proof.
  eexists.
  apply (proj2 (normalization_pooling_units true unary_node (sample_state F32)
                  (gc_tensor (Some 1%positive)) (gc_tensor (Some 4%positive))
                  1%positive 4%positive eq_refl eq_refl
                  ltac:(sample_resolves) ltac:(sample_resolves))).
Defined.

(** On a fully connected node with three inputs and one output that all
    resolve to valid backing tensors, bias included, the lowerer returns,
    with or without logging, the unit constructed with the memory manager
    the context holds for the GLES target and configured with input,
    weights, bias and output in that order. *)
Theorem fully_connected_unit (log : bool) (node : INode) (ctx : GraphContext) (s : State)
    (t_in t_w t_b t_out : option Tensor) (a w b o : addr) :
  inputs node = [t_in; t_w; t_b] -> outputs node = [t_out] ->
  resolves s t_in a -> resolves s t_w w -> resolves s t_b b -> resolves s t_out o ->
  let args := FullyConnectedArgs (Some a) (Some w) (Some b) (Some o) in
  let mm := memory_managers ctx GC in
  create_fully_connected_layer log node ctx s
  = Returned (Some {| function_class := GCFullyConnectedLayer; manager := Some mm;
                      configured := Some args |})
             {| tensors := tensors s;
                trace := trace s ++ [GetMemoryManager GC;
                                     MakeUnique GCFullyConnectedLayer (Some mm);
                                     Configure GCFullyConnectedLayer args] |}.
Proof.
  intros Hin Hout (Hoki & Hbi & Hli) (Hokw & Hbw & Hlw) (Hokb & Hbb & Hlb)
         (Hoko & Hbo & Hlo) args mm.
  unfold create_fully_connected_layer. rewrite skip_verbose.
  open_node Hin Hout. resolve_slots.
  rewrite Hbi, Hbw, Hbb, Hbo, lookup_manager, make_and_configure, !pass_null_check.
  rewrite log_skip by valid_pointers.
  simpl. rewrite <- app_assoc. reflexivity.
Qed.

Lemma fully_connected_unit_witness :
  exists s',
    create_fully_connected_layer true ternary_node sample_ctx (sample_state F32)
    = Returned
        (Some {| function_class := GCFullyConnectedLayer; manager := Some (Some 11%N);
                 configured :=
                   Some (FullyConnectedArgs (Some 1%positive) (Some 2%positive)
                           (Some 3%positive) (Some 4%positive)) |}) s'.
Proof.
  eexists.
  apply (fully_connected_unit true ternary_node sample_ctx (sample_state F32)
           (gc_tensor (Some 1%positive)) (gc_tensor (Some 2%positive))
           (gc_tensor (Some 3%positive)) (gc_tensor (Some 4%positive))
           1%positive 2%positive 3%positive 4%positive);
    try reflexivity; sample_resolves.
Defined.

(** ** Which nodes yield a unit *)

Lemma fatal_not_returned {A} (r : Outcome A) x s' :
  is_fatal r = true -> r <> Returned x s'.
Proof. intros Hf ->. discriminate. Qed.

Lemma valid_slots_resolve s ts :
  Forall (valid_slot s) ts -> exists addrs, Forall2 (resolves s) ts addrs.
Proof.
  induction 1 as [|t ts [a Ha] _ [addrs IH]].
  - exists []. constructor.
  - exists (a :: addrs). constructor; assumption.
Qed.

(** The valid slots of a node whose slot lists are known, one hypothesis
    per fact. *)
Ltac valid_slots Hvalid :=
  simpl in Hvalid;
  repeat (let a := fresh "a" in
          let Hok := fresh "Hok" in
          let Hb := fresh "Hb" in
          let Hl := fresh "Hl" in
          apply Forall_cons in Hvalid as [(a & Hok & Hb & Hl) Hvalid]);
  clear Hvalid.

Ltac rewrite_backings :=
  resolve_slots;
  repeat match goal with
         | H : backing _ = Some _ |- _ => rewrite H
         end;
  rewrite ?pass_null_check.

Ltac unit_found := eexists; eexists; split; reflexivity.

(** For a node of the right arity whose slots all hold tensors of the GLES
    target with valid backing storage, the factory returns a unit exactly
    for the nodes that have one: every supported kind, except a
    switched-off concatenation, a depthwise method other than
    OPTIMIZED_3x3 and an elementwise operation other than ADD and MUL.
    The class of the unit is fixed by the node: the convolution hint picks
    between the direct and the general unit, the elementwise operation
    between addition and multiplication. *)
Theorem create_yields_unit (log : bool) (node : Node) (ctx : GraphContext) (s : State) :
  has_fixed_arity node = true ->
  Forall (valid_slot s) (inputs (base node) ++ outputs (base node)) ->
  match unit_class (class node) with
  | Some cls =>
      exists u s', create log (Some node) ctx s = Returned (Some u) s'
                   /\ function_class u = cls
  | None =>
      forall u s', create log (Some node) ctx s <> Returned (Some u) s'
  end.
Proof.
  destruct node as [b c]. unfold has_fixed_arity, create, type. simpl.
  intros Har Hvalid.
  destruct c; simpl in Har; simpl unit_class.
  - unfold create_activation_layer. fixed_slots Har. rewrite Hi, Ho in Hvalid.
    valid_slots Hvalid. rewrite_backings. rewrite make_and_configure.
    rewrite log_skip by valid_pointers. unit_found.
  - unfold create_batch_normalization_layer. fixed_slots Har. rewrite Hi, Ho in Hvalid.
    valid_slots Hvalid. rewrite_backings. rewrite make_and_configure.
    rewrite log_skip by valid_pointers. unit_found.
  - unfold create_convolution_layer. fixed_slots Har. rewrite Hi, Ho in Hvalid.
    valid_slots Hvalid. rewrite_backings.
    destruct Hl as [ia Hia]. destruct Hl1 as [ib Hib].
    rewrite (read_info _ _ _ _ Hia), (coercion_step _ _ _ _ _ Hib), lookup_manager.
    destruct convolution_method as [|tag].
    + erewrite bind_returned by apply create_named_function_run.
      rewrite log_skip by coerced_pointers. unit_found.
    + erewrite bind_returned by apply create_named_memory_managed_function_run.
      rewrite log_skip by coerced_pointers. unit_found.
  - apply bool_decide_eq_true in Har. apply fixed_output in Har as (t_out & Ho).
    unfold create_depth_concatenate_layer. rewrite skip_verbose.
    unfold num_outputs. rewrite Ho. simpl length. rewrite pass_arity.
    destruct is_enabled.
    + change (negb true) with false. cbv iota.
      rewrite Ho in Hvalid. apply Forall_app in Hvalid as [Hins Hout].
      apply Forall_cons in Hout as [(o & Hoko & Hbo & Hlo) _].
      apply valid_slots_resolve in Hins as [addrs Hins].
      apply resolves_all in Hins as [Hok Hmap].
      erewrite bind_returned
        by (apply (resolve_inputs_run b s Hok (num_inputs b) 0 []); reflexivity).
      unfold node_output. rewrite Ho. simpl (_ !! _). cbv iota.
      resolve_slots. rewrite Hbo, make_and_configure.
      rewrite log_skip by valid_pointers. unit_found.
    + intros u s'. discriminate.
  - unfold create_depthwise_convolution_layer. fixed_slots Har. rewrite Hi, Ho in Hvalid.
    valid_slots Hvalid. rewrite_backings.
    destruct Hl as [ia Hia]. destruct Hl1 as [ib Hib].
    rewrite (read_info _ _ _ _ Hia), (coercion_step _ _ _ _ _ Hib).
    destruct depthwise_convolution_method as [|tag].
    + erewrite bind_returned by apply create_named_function_run.
      rewrite log_skip by coerced_pointers. unit_found.
    + intros u s'. apply fatal_not_returned. reflexivity.
  - unfold create_eltwise_layer. fixed_slots Har. rewrite Hi, Ho in Hvalid.
    valid_slots Hvalid. rewrite_backings.
    destruct eltwise_operation as [| | |tag].
    + erewrite bind_returned by apply create_named_function_run.
      rewrite log_skip by valid_pointers. unit_found.
    + intros u s'. apply fatal_not_returned. reflexivity.
    + erewrite bind_returned by apply create_named_function_run.
      rewrite log_skip by valid_pointers. unit_found.
    + intros u s'. apply fatal_not_returned. reflexivity.
  - unfold create_fully_connected_layer. fixed_slots Har. rewrite Hi, Ho in Hvalid.
    valid_slots Hvalid. rewrite_backings.
    rewrite lookup_manager, make_and_configure, !pass_null_check.
    rewrite log_skip by valid_pointers. unit_found.
  - unfold create_normalization_layer. fixed_slots Har. rewrite Hi, Ho in Hvalid.
    valid_slots Hvalid. rewrite_backings. rewrite make_and_configure.
    rewrite log_skip by valid_pointers. unit_found.
  - unfold create_pooling_layer. fixed_slots Har. rewrite Hi, Ho in Hvalid.
    valid_slots Hvalid. rewrite_backings. rewrite make_and_configure.
    rewrite log_skip by valid_pointers. unit_found.
  - unfold create_softmax_layer. fixed_slots Har. rewrite Hi, Ho in Hvalid.
    valid_slots Hvalid. rewrite_backings.
    rewrite lookup_manager, make_and_configure.
    rewrite log_skip by valid_pointers. unit_found.
  - intros u s'. discriminate.
Qed.

Lemma create_yields_unit_witness :
  exists u s',
    create true
      (Some {| base := ternary_node;
               class := ConvolutionLayerNode sample_conv_info (OtherConvolutionMethod 0) |})
      sample_ctx (sample_state QASYMM8)
    = Returned (Some u) s'
    /\ function_class u = GCConvolutionLayer.
Proof.
  apply (create_yields_unit true
           {| base := ternary_node;
              class := ConvolutionLayerNode sample_conv_info (OtherConvolutionMethod 0) |}
           sample_ctx (sample_state QASYMM8)).
  - reflexivity.
  - simpl.
    constructor; [exists 1%positive; sample_resolves|].
    constructor; [exists 2%positive; sample_resolves|].
    constructor; [exists 3%positive; sample_resolves|].
    constructor; [exists 4%positive; sample_resolves|].
    constructor.
Defined.
